(** * Payment lifecycle of the travel-booking backend

    A shallow embedding of [listings/services.py] (the Chapa gateway client
    and the payment service), of the [Payment] model of [listings/models.py]
    and of the payment tasks of [listings/tasks.py], followed by the
    properties of the payment state machine.

    Conventions.
    - A Python [str] is a Rocq [string] holding its UTF-8 encoding.
    - A [Decimal] with two decimal places (a [DecimalField] with
      [decimal_places=2]) is the integer number of hundredths, in [Z]. The
      product of a price (at most 10 digits) with a number of nights (at most
      7 digits) stays far below the 28 significant digits of the default
      decimal context, so the multiplication is exact.
    - A [date] is its proleptic ordinal in [Z]; a [datetime] is a number of
      microseconds in [Z].
    - A nullable column is an [option]. *)

From Stdlib Require Import ZArith NArith Ascii String List Lia.
From stdpp Require Import base option list gmap strings pretty.

Local Open Scope Z_scope.

(** ** Python strings *)

Module Str.

(** [chr(n)] for one byte. *)
Definition byte (n : N) : ascii := ascii_of_N n.

(** One character of [str.lower()]: the letters [A]..[Z] go to [a]..[z].
    Bytes from 128 up belong to the encoding of a character outside ASCII
    and are kept. The only characters outside ASCII whose lowercase form
    holds an ASCII letter are U+212A (to [k]) and U+0130 (to [i] followed by
    U+0307), and neither can produce a word of the status vocabulary below,
    so that the lookups made with the lowercased string are those of
    Python. *)
Definition lower_ascii (c : ascii) : ascii :=
  let n := N_of_ascii c in
  if ((65 <=? n) && (n <=? 90))%N then byte (n + 32) else c.

(** [s.lower()] *)
Fixpoint lower (s : string) : string :=
  match s with
  | EmptyString => EmptyString
  | String c r => String (lower_ascii c) (lower r)
  end.

(** The characters of a string: each item is the encoding of one code
    point, of 1 to 4 bytes according to its first byte. *)
Fixpoint chars (s : string) : list string :=
  match s with
  | EmptyString => []
  | String a r =>
      let n := N_of_ascii a in
      if (n <? 192)%N then String a "" :: chars r
      else
        match r with
        | EmptyString => [String a ""]
        | String b r2 =>
            if (n <? 224)%N then String a (String b "") :: chars r2
            else
              match r2 with
              | EmptyString => [String a (String b "")]
              | String c r3 =>
                  if (n <? 240)%N
                  then String a (String b (String c "")) :: chars r3
                  else
                    match r3 with
                    | EmptyString => [String a (String b (String c ""))]
                    | String d r4 =>
                        String a (String b (String c (String d "")))
                          :: chars r4
                    end
              end
        end
  end.

(** [ord(c)] of one encoded character; a byte that encodes nothing on its
    own counts as U+FFFD. *)
Definition ord (c : string) : N :=
  match c with
  | String a EmptyString =>
      let n := N_of_ascii a in if (n <? 128)%N then n else 65533%N
  | String a (String b EmptyString) =>
      ((N_of_ascii a - 192) * 64 + (N_of_ascii b - 128))%N
  | String a (String b (String c EmptyString)) =>
      ((N_of_ascii a - 224) * 4096 + (N_of_ascii b - 128) * 64
       + (N_of_ascii c - 128))%N
  | String a (String b (String c (String d EmptyString))) =>
      ((N_of_ascii a - 240) * 262144 + (N_of_ascii b - 128) * 4096
       + (N_of_ascii c - 128) * 64 + (N_of_ascii d - 128))%N
  | _ => 65533%N
  end.

(** [c.isspace()] for one character: the whitespace code points of
    CPython (U+0009..U+000D, U+001C..U+0020, U+0085, U+00A0, U+1680,
    U+2000..U+200A, U+2028, U+2029, U+202F, U+205F, U+3000). *)
Definition isspace (c : string) : bool :=
  let n := ord c in
  ((9 <=? n) && (n <=? 13) || (28 <=? n) && (n <=? 32)
   || (n =? 133) || (n =? 160) || (n =? 5760)
   || (8192 <=? n) && (n <=? 8202)
   || (n =? 8232) || (n =? 8233) || (n =? 8239) || (n =? 8287)
   || (n =? 12288))%N.

Fixpoint lstrip_chars (cs : list string) : list string :=
  match cs with
  | c :: r => if isspace c then lstrip_chars r else cs
  | [] => []
  end.

(** [''.join(cs)] *)
Definition join_chars (cs : list string) : string :=
  foldr String.append EmptyString cs.

(** [s.strip()] *)
Definition strip (s : string) : string :=
  join_chars (rev (lstrip_chars (rev (lstrip_chars (chars s))))).

Fixpoint split_go (cur : option string) (cs : list string) : list string :=
  match cs with
  | [] => option_list cur
  | c :: r =>
      if isspace c then option_list cur ++ split_go None r
      else split_go (Some (from_option (λ w, w +:+ c) c cur)) r
  end.

(** [s.split()]: the maximal runs of characters that are not whitespace. *)
Definition split (s : string) : list string := split_go None (chars s).

(** [sep.join(ws)] *)
Fixpoint join (sep : string) (ws : list string) : string :=
  match ws with
  | [] => ""
  | [w] => w
  | w :: r => w +:+ sep +:+ join sep r
  end.

(** Truth value of a string: [bool(s)]. *)
Definition truthy (s : string) : bool :=
  match s with EmptyString => false | _ => true end.

End Str.

(** Truth value of a nullable string: [None] and [''] are false. *)
Definition truthy (o : option string) : bool :=
  match o with Some s => Str.truthy s | None => false end.

(** ** Data model ([listings/models.py]) *)

(** [django.contrib.auth.models.User], the fields the payment service reads. *)
Record User := {
  username : string;
  email : string;
  first_name : string;
  last_name : string;
}.

Record Listing := {
  listing_id : Z;
  price_per_night : Z;          (* hundredths *)
}.

Record Booking := {
  booking_id : Z;
  listing : Listing;
  user : User;
  start_date : Z;
  end_date : Z;
}.

(** One row of the [Payment] table. [booking] is the foreign key. *)
Record Payment := {
  id : Z;
  booking : Z;
  reference : string;
  amount : Z;                   (* hundredths *)
  currency : string;
  status : string;
  payment_method : option string;
  transaction_id : option string;
  chapa_transaction_ref : option string;
  checkout_url : option string;
  customer_email : option string;
  customer_name : option string;
  customer_phone : option string;
  created_at : Z;
  updated_at : Z;
}.

(** Attribute assignments on a [Payment] instance. *)
Definition set_status (v : string) (p : Payment) : Payment :=
  {| id := id p; booking := booking p; reference := reference p;
     amount := amount p; currency := currency p; status := v;
     payment_method := payment_method p; transaction_id := transaction_id p;
     chapa_transaction_ref := chapa_transaction_ref p;
     checkout_url := checkout_url p; customer_email := customer_email p;
     customer_name := customer_name p; customer_phone := customer_phone p;
     created_at := created_at p; updated_at := updated_at p |}.

Definition set_chapa_transaction_ref (v : option string) (p : Payment) : Payment :=
  {| id := id p; booking := booking p; reference := reference p;
     amount := amount p; currency := currency p; status := status p;
     payment_method := payment_method p; transaction_id := transaction_id p;
     chapa_transaction_ref := v;
     checkout_url := checkout_url p; customer_email := customer_email p;
     customer_name := customer_name p; customer_phone := customer_phone p;
     created_at := created_at p; updated_at := updated_at p |}.

Definition set_checkout_url (v : option string) (p : Payment) : Payment :=
  {| id := id p; booking := booking p; reference := reference p;
     amount := amount p; currency := currency p; status := status p;
     payment_method := payment_method p; transaction_id := transaction_id p;
     chapa_transaction_ref := chapa_transaction_ref p;
     checkout_url := v; customer_email := customer_email p;
     customer_name := customer_name p; customer_phone := customer_phone p;
     created_at := created_at p; updated_at := updated_at p |}.

Definition set_reference (v : string) (p : Payment) : Payment :=
  {| id := id p; booking := booking p; reference := v;
     amount := amount p; currency := currency p; status := status p;
     payment_method := payment_method p; transaction_id := transaction_id p;
     chapa_transaction_ref := chapa_transaction_ref p;
     checkout_url := checkout_url p; customer_email := customer_email p;
     customer_name := customer_name p; customer_phone := customer_phone p;
     created_at := created_at p; updated_at := updated_at p |}.

Definition set_updated_at (v : Z) (p : Payment) : Payment :=
  {| id := id p; booking := booking p; reference := reference p;
     amount := amount p; currency := currency p; status := status p;
     payment_method := payment_method p; transaction_id := transaction_id p;
     chapa_transaction_ref := chapa_transaction_ref p;
     checkout_url := checkout_url p; customer_email := customer_email p;
     customer_name := customer_name p; customer_phone := customer_phone p;
     created_at := created_at p; updated_at := v |}.

(** The terminal states of the payment state machine. *)
Definition terminal (s : string) : Prop :=
  s = "completed" ∨ s = "failed" ∨ s = "cancelled".

(** ** Gateway results ([ChapaService]) *)

(** The dict built by [PaymentService.initiate_payment] for the gateway. *)
Record PaymentData := {
  pd_amount : Z;
  pd_currency : string;
  pd_email : option string;
  pd_reference : string;
  pd_first_name : string;
  pd_last_name : string;
  pd_booking_reference : string;
  pd_callback_url : string;
  pd_return_url : string;
}.

(** What [ChapaService.initialize_payment] returns: the dict with
    ['success': True] or the one with ['success': False]. A value the
    gateway's JSON lacks is [None]. *)
Inductive InitializeResult :=
| InitializeOk (checkout transaction_ref remote_status message : option string)
| InitializeFailed (error message : string).

(** What [ChapaService.verify_payment] returns. *)
Inductive VerifyResult :=
| VerifyOk (remote_status amount currency transaction_ref message : option string)
| VerifyFailed (error message : string).

(** What [PaymentService.initiate_payment] returns. *)
Inductive InitiateResult :=
| InitiateOk (checkout : option string) (payment_id : Z) (reference : string)
| InitiateFailed (error message : string).

(** What [PaymentService.verify_payment_status] returns. *)
Inductive StatusResult :=
| StatusOk (new_status : string) (amount currency : option string)
| StatusFailed (error message : string).

(** The [result['success']] tag of each result. *)
Definition initiate_success (r : InitiateResult) : bool :=
  match r with InitiateOk _ _ _ => true | InitiateFailed _ _ => false end.

Definition status_success (r : StatusResult) : bool :=
  match r with StatusOk _ _ _ => true | StatusFailed _ _ => false end.

(** ** The world: database, clock, gateway and task queue *)

(** The tasks [verify] hands to the queue with [.delay(payment_id)]. *)
Inductive Task :=
| send_payment_confirmation_email (payment_id : Z)
| send_payment_failed_email (payment_id : Z).

(** The exceptions the modelled code can raise. *)
Inductive Exn :=
| IndexError
| AttributeError
| DoesNotExist.

(** [payments] is the [Payment] table by primary key and [next_id] its
    sequence. The gateway is outside the program: [chapa_initialize] and
    [chapa_verify] give the outcome of the [n]-th HTTP exchange (transport
    errors included, which the client turns into a failed result), and
    [requests] counts the exchanges made so far. [uuid4] is the source of
    fresh references and [drawn] counts the draws. [queue] is the task
    queue, oldest first. [now] is the clock; the modelled code reads it and
    never advances it. *)
Record World := {
  payments : gmap Z Payment;
  next_id : Z;
  now : Z;
  chapa_initialize : nat → PaymentData → InitializeResult;
  chapa_verify : nat → string → VerifyResult;
  requests : nat;
  uuid4 : nat → string;
  drawn : nat;
  queue : list Task;
}.

Definition set_payments (v : gmap Z Payment) (w : World) : World :=
  {| payments := v; next_id := next_id w; now := now w;
     chapa_initialize := chapa_initialize w; chapa_verify := chapa_verify w;
     requests := requests w; uuid4 := uuid4 w; drawn := drawn w;
     queue := queue w |}.

Definition set_next_id (v : Z) (w : World) : World :=
  {| payments := payments w; next_id := v; now := now w;
     chapa_initialize := chapa_initialize w; chapa_verify := chapa_verify w;
     requests := requests w; uuid4 := uuid4 w; drawn := drawn w;
     queue := queue w |}.

Definition set_requests (v : nat) (w : World) : World :=
  {| payments := payments w; next_id := next_id w; now := now w;
     chapa_initialize := chapa_initialize w; chapa_verify := chapa_verify w;
     requests := v; uuid4 := uuid4 w; drawn := drawn w;
     queue := queue w |}.

Definition set_drawn (v : nat) (w : World) : World :=
  {| payments := payments w; next_id := next_id w; now := now w;
     chapa_initialize := chapa_initialize w; chapa_verify := chapa_verify w;
     requests := requests w; uuid4 := uuid4 w; drawn := v;
     queue := queue w |}.

Definition set_queue (v : list Task) (w : World) : World :=
  {| payments := payments w; next_id := next_id w; now := now w;
     chapa_initialize := chapa_initialize w; chapa_verify := chapa_verify w;
     requests := requests w; uuid4 := uuid4 w; drawn := drawn w;
     queue := v |}.

(** ** Computations: state of the world, with exceptions *)

Definition M (A : Type) : Type := World → (Exn + A) * World.

Global Instance M_ret : MRet M := λ A a w, (inr a, w).

Global Instance M_bind : MBind M := λ A B k m w,
  match m w with
  | (inr a, w') => k a w'
  | (inl e, w') => (inl e, w')
  end.

Definition raise {A} (e : Exn) : M A := λ w, (inl e, w).
Definition get : M World := λ w, (inr w, w).
Definition modify (f : World → World) : M () := λ w, (inr (), f w).

(** The value and the final world of a run. *)
Definition value {A} (r : (Exn + A) * World) : Exn + A := r.1.
Definition world {A} (r : (Exn + A) * World) : World := r.2.

(** The stored status of a payment, if the row exists. *)
Definition stored_status (w : World) (i : Z) : option string :=
  status <$> payments w !! i.

Definition stored_ref (w : World) (i : Z) : option (option string) :=
  chapa_transaction_ref <$> payments w !! i.

(** ** The gateway client ([ChapaService]) *)

(** [ChapaService.initialize_payment]: one exchange with the gateway; every
    exception is caught inside and becomes a failed result. *)
Definition initialize_payment (payment_data : PaymentData) : M InitializeResult :=
  w ← get;
  modify (set_requests (S (requests w)));;
  mret (chapa_initialize w (requests w) payment_data).

(** [ChapaService.verify_payment]: likewise. *)
Definition verify_payment (transaction_ref : string) : M VerifyResult :=
  w ← get;
  modify (set_requests (S (requests w)));;
  mret (chapa_verify w (requests w) transaction_ref).

(** The [status_mapping] dict of [ChapaService.get_payment_status]. *)
Definition status_mapping : gmap string string :=
  {[ "success" := "completed"; "pending" := "pending";
     "failed" := "failed"; "cancelled" := "cancelled" ]}.

(** The normalization of a remote status, as the success branch of
    [get_payment_status] does it:
    [status_mapping.get(status.lower(), 'pending')]. *)
Definition normalize_status (remote_status : string) : string :=
  let chapa_status := Str.lower remote_status in
  default "pending" (status_mapping !! chapa_status).

(** [ChapaService.get_payment_status]. The success dict always holds the key
    ['status'], so the default of [.get('status', '')] is never taken; when
    the gateway's JSON has no status the value is [None], and [.lower()]
    raises. *)
Definition get_payment_status (transaction_ref : string) : M string :=
  verification_result ← verify_payment transaction_ref;
  match verification_result with
  | VerifyOk remote_status _ _ _ _ =>
      match remote_status with
      | Some s => mret (normalize_status s)
      | None => raise AttributeError
      end
  | VerifyFailed _ _ => mret "failed"
  end.

(** ** The [Payment] manager *)

(** [Payment.save]: an empty reference is replaced by a fresh one, then the
    row is written ([auto_now] stamps [updated_at]). The result is the
    instance as it is after the call. *)
Definition save (payment : Payment) : M Payment :=
  w ← get;
  payment ← (if Str.truthy (reference payment) then mret payment
             else modify (set_drawn (S (drawn w)));;
                  mret (set_reference (uuid4 w (drawn w)) payment));
  let payment := set_updated_at (now w) payment in
  modify (λ w, set_payments (<[id payment := payment]> (payments w)) w);;
  mret payment.

(** [Payment.objects.create(booking=, amount=, customer_email=,
    customer_name=, status=)]: the other columns take their defaults; the
    default reference is a UUID object, which is never empty, so that the
    test of [save] does not fire. The table is taken to accept the row: no
    column width is enforced (as with SQLite), and the fresh reference
    collides with no stored one. *)
Definition objects_create (booking : Z) (amount : Z)
    (customer_email customer_name : string) (status : string) : M Payment :=
  w ← get;
  let payment :=
    {| id := next_id w; booking := booking; reference := uuid4 w (drawn w);
       amount := amount; currency := "ETB"; status := status;
       payment_method := None; transaction_id := None;
       chapa_transaction_ref := None; checkout_url := None;
       customer_email := Some customer_email;
       customer_name := Some customer_name; customer_phone := None;
       created_at := now w; updated_at := now w |} in
  modify (λ w, set_payments (<[id payment := payment]> (payments w))
                 (set_next_id (next_id w + 1) (set_drawn (S (drawn w)) w)));;
  mret payment.

(** [Payment.objects.get(id=payment_id)] *)
Definition objects_get (payment_id : Z) : M Payment :=
  w ← get;
  match payments w !! payment_id with
  | Some payment => mret payment
  | None => raise DoesNotExist
  end.

(** ** The payment service ([PaymentService]) *)

(** [f"{user.first_name} {user.last_name}".strip() or user.username] *)
Definition payer_name (user : User) : string :=
  let full := Str.strip (first_name user +:+ " " +:+ last_name user) in
  if Str.truthy full then full else username user.

(** [PaymentService.create_payment_for_booking] *)
Definition create_payment_for_booking (booking : Booking) (user : User) : M Payment :=
  let nights := end_date booking - start_date booking in
  let total_amount := price_per_night (listing booking) * nights in
  objects_create (booking_id booking) total_amount (email user)
    (payer_name user) "pending".

(** The [payment_data] dict of [initiate_payment]. [split()[0]] raises
    [IndexError] on a name made of whitespace only. *)
Definition build_payment_data (payment : Payment) : Exn + PaymentData :=
  let name := customer_name payment in
  let words := Str.split (default "" name) in
  let last :=
    if truthy name && (1 <? length words)%nat
    then Str.join " " (tail words) else "" in
  let data first :=
    {| pd_amount := amount payment;
       pd_currency := currency payment;
       pd_email := customer_email payment;
       pd_reference := reference payment;
       pd_first_name := first;
       pd_last_name := last;
       pd_booking_reference := "BK-" +:+ pretty (booking payment);
       pd_callback_url :=
         "https://your-domain.com/api/payments/" +:+ pretty (id payment)
           +:+ "/verify/";
       pd_return_url :=
         "https://your-domain.com/payment/success/" +:+ reference payment
           +:+ "/" |} in
  if truthy name
  then match words with
       | first :: _ => inr (data first)
       | [] => inl IndexError
       end
  else inr (data "").

(** [PaymentService.initiate_payment] *)
Definition initiate_payment (payment : Payment) : M InitiateResult :=
  payment_data ← (match build_payment_data payment with
                  | inr d => mret d
                  | inl e => raise e
                  end);
  result ← initialize_payment payment_data;
  match result with
  | InitializeOk checkout transaction_ref _ _ =>
      payment ← save (set_status "processing"
                        (set_checkout_url checkout
                           (set_chapa_transaction_ref transaction_ref payment)));
      mret (InitiateOk checkout (id payment) (reference payment))
  | InitializeFailed error message =>
      save (set_status "failed" payment);;
      mret (InitiateFailed error message)
  end.

(** [PaymentService.verify_payment_status] *)
Definition verify_payment_status (payment : Payment) : M StatusResult :=
  if negb (truthy (chapa_transaction_ref payment))
  then mret (StatusFailed "No Chapa transaction reference found"
                          "Payment verification failed")
  else
    let ref := default "" (chapa_transaction_ref payment) in
    result ← verify_payment ref;
    match result with
    | VerifyOk _ amount currency _ _ =>
        new_status ← get_payment_status ref;
        save (set_status new_status payment);;
        mret (StatusOk new_status amount currency)
    | VerifyFailed error message => mret (StatusFailed error message)
    end.

(** ** The tasks ([listings/tasks.py]) *)

(** [task.delay(payment_id)] *)
Definition delay (t : Task) : M () :=
  modify (λ w, set_queue (queue w ++ [t]) w).

(** The [try] block of [update_payment_status]. *)
Definition update_payment_status_try (payment_id : Z) : M () :=
  payment ← objects_get payment_id;
  result ← verify_payment_status payment;
  match result with
  | StatusOk new_status _ _ =>
      if String.eqb new_status "completed"
      then delay (send_payment_confirmation_email payment_id)
      else if String.eqb new_status "failed"
      then delay (send_payment_failed_email payment_id)
      else mret ()
  | StatusFailed _ _ => mret ()
  end.

(** [update_payment_status]: the task logs and swallows every exception, and
    returns nothing. *)
Definition update_payment_status (payment_id : Z) (w : World) : World :=
  world (update_payment_status_try payment_id w).

(** The filter of [cleanup_expired_payments]:
    [status='pending', created_at__lt=cutoff_time]. *)
Definition expired (cutoff_time : Z) (payment : Payment) : bool :=
  String.eqb (status payment) "pending" && (created_at payment <? cutoff_time).

(** [timedelta(hours=24)], in microseconds. *)
Definition hours24 : Z := 24 * 3600 * 1000000.

(** [cleanup_expired_payments]: [QuerySet.update] writes the one column and
    does not go through [save]. *)
Definition cleanup_expired_payments (w : World) : World :=
  let cutoff_time := now w - hours24 in
  set_payments
    ((λ payment, if expired cutoff_time payment
                 then set_status "failed" payment else payment)
       <$> payments w) w.

(** ** The gateway's answers as JSON ([ChapaService], after the exchange) *)

(** A decoded JSON value, as [response.json()] gives it; [None] is
    [JNull]. *)
#[warnings="-register-all"]
Inductive Json :=
| JNull
| JBool (b : bool)
| JInt (n : Z)
| JFloat (literal : string)
| JStr (s : string)
| JList (items : list Json)
| JDict (fields : gmap string Json).

(** [type(v).__name__] *)
Definition type_name (v : Json) : string :=
  match v with
  | JNull => "NoneType"
  | JBool _ => "bool"
  | JInt _ => "int"
  | JFloat _ => "float"
  | JStr _ => "str"
  | JList _ => "list"
  | JDict _ => "dict"
  end.

(** The text of the [AttributeError] for a missing method. *)
Definition no_attribute (v : Json) (method : string) : string :=
  "'" +:+ type_name v +:+ "' object has no attribute '" +:+ method +:+ "'".

(** [v.get(key, fallback)]: the text of the [AttributeError] when [v] is
    not a dict. *)
Definition py_get (v : Json) (key : string) (fallback : Json) : string + Json :=
  match v with
  | JDict fields => inr (default fallback (fields !! key))
  | _ => inl (no_attribute v "get")
  end.

(** What the request, [raise_for_status()] and [response.json()] leave: the
    decoded body, or the exception raised on the way, with its text and
    whether it is a [requests.exceptions.RequestException] (a transport
    error, a status from 400 up). *)
Inductive Exchange :=
| Answered (data : Json)
| Raised (request_exception : bool) (text : string).

(** The dict [ChapaService.initialize_payment] returns, with the values as
    they come from the gateway. *)
Inductive InitializeDict :=
| InitializeSuccess (checkout transaction_ref remote_status message : Json)
| InitializeError (error message : string).

(** The dict [ChapaService.verify_payment] returns. *)
Inductive VerifyDict :=
| VerifySuccess (remote_status amount currency transaction_ref message : Json)
| VerifyError (error message : string).

(** [ChapaService.initialize_payment] from the exchange on: the values are
    read with [data.get('data', {}).get(...)] and [data.get(...)], in the
    order of the returned dict, and an exception on the way is caught by
    one of the two handlers. *)
Definition initialize_payment_answer (x : Exchange) : InitializeDict :=
  match x with
  | Answered data =>
      let unexpected text :=
        InitializeError text "An unexpected error occurred" in
      match py_get data "data" (JDict ∅) with
      | inl text => unexpected text
      | inr inner =>
          match py_get inner "checkout_url" JNull,
                py_get inner "reference" JNull,
                py_get data "status" JNull,
                py_get data "message" JNull with
          | inr checkout, inr transaction_ref, inr remote_status, inr message =>
              InitializeSuccess checkout transaction_ref remote_status message
          | inl text, _, _, _ => unexpected text
          | _, inl text, _, _ => unexpected text
          | _, _, inl text, _ => unexpected text
          | _, _, _, inl text => unexpected text
          end
      end
  | Raised true text => InitializeError text "Failed to initialize payment"
  | Raised false text => InitializeError text "An unexpected error occurred"
  end.

(** [ChapaService.verify_payment] from the exchange on. *)
Definition verify_payment_answer (x : Exchange) : VerifyDict :=
  match x with
  | Answered data =>
      let unexpected text := VerifyError text "An unexpected error occurred" in
      match py_get data "data" (JDict ∅) with
      | inl text => unexpected text
      | inr inner =>
          match py_get inner "status" JNull,
                py_get inner "amount" JNull,
                py_get inner "currency" JNull,
                py_get inner "reference" JNull,
                py_get data "message" JNull with
          | inr remote_status, inr amount, inr currency, inr transaction_ref,
            inr message =>
              VerifySuccess remote_status amount currency transaction_ref
                message
          | inl text, _, _, _, _ => unexpected text
          | _, inl text, _, _, _ => unexpected text
          | _, _, inl text, _, _ => unexpected text
          | _, _, _, inl text, _ => unexpected text
          | _, _, _, _, inl text => unexpected text
          end
      end
  | Raised true text => VerifyError text "Failed to verify payment"
  | Raised false text => VerifyError text "An unexpected error occurred"
  end.

(** [ChapaService.get_payment_status] on the dict of [verify_payment]: the
    status when it is returned, the text of the [AttributeError] of
    [.lower()] when the remote status is no string. *)
Definition payment_status_answer (r : VerifyDict) : string + string :=
  match r with
  | VerifySuccess (JStr s) _ _ _ _ => inr (normalize_status s)
  | VerifySuccess v _ _ _ _ => inl (no_attribute v "lower")
  | VerifyError _ _ => inr "failed"
  end.

(** A JSON value read as a nullable string: a string is itself, anything
    else is absent. *)
Definition as_text (v : Json) : option string :=
  match v with JStr s => Some s | _ => None end.

(** The dict of [verify_payment] with its values read as nullable
    strings. *)
Definition as_verify_result (r : VerifyDict) : VerifyResult :=
  match r with
  | VerifySuccess remote_status amount currency transaction_ref message =>
      VerifyOk (as_text remote_status) (as_text amount) (as_text currency)
        (as_text transaction_ref) (as_text message)
  | VerifyError error message => VerifyFailed error message
  end.

(** ** Further columns and the table's invariants *)

Definition set_payment_method (v : option string) (p : Payment) : Payment :=
  {| id := id p; booking := booking p; reference := reference p;
     amount := amount p; currency := currency p; status := status p;
     payment_method := v; transaction_id := transaction_id p;
     chapa_transaction_ref := chapa_transaction_ref p;
     checkout_url := checkout_url p; customer_email := customer_email p;
     customer_name := customer_name p; customer_phone := customer_phone p;
     created_at := created_at p; updated_at := updated_at p |}.

Definition set_customer_phone (v : option string) (p : Payment) : Payment :=
  {| id := id p; booking := booking p; reference := reference p;
     amount := amount p; currency := currency p; status := status p;
     payment_method := payment_method p; transaction_id := transaction_id p;
     chapa_transaction_ref := chapa_transaction_ref p;
     checkout_url := checkout_url p; customer_email := customer_email p;
     customer_name := customer_name p; customer_phone := v;
     created_at := created_at p; updated_at := updated_at p |}.

(** [Payment.PAYMENT_STATUS_CHOICES] *)
Definition PAYMENT_STATUS_CHOICES : list (string * string) :=
  [("pending", "Pending"); ("processing", "Processing");
   ("completed", "Completed"); ("failed", "Failed");
   ("cancelled", "Cancelled")].

(** A status the model declares. *)
Definition valid_status (s : string) : Prop := s ∈ PAYMENT_STATUS_CHOICES.*1.

(** Every stored status is one the model declares. *)
Definition valid_statuses (w : World) : Prop :=
  ∀ (i : Z) (p : Payment), payments w !! i = Some p → valid_status (status p).

(** Every row sits under its own primary key, below the sequence. *)
Definition keyed (w : World) : Prop :=
  ∀ (i : Z) (p : Payment), payments w !! i = Some p → id p = i ∧ i < next_id w.

(** A string made of whitespace only (the empty string included):
    [not s.split()]. *)
Definition blank (s : string) : bool := forallb Str.isspace (Str.chars s).

(** The columns neither [initiate] nor [verify] assigns. *)
Definition same_booking_data (p q : Payment) : Prop :=
  id q = id p ∧ booking q = booking p ∧ amount q = amount p
  ∧ currency q = currency p ∧ payment_method q = payment_method p
  ∧ transaction_id q = transaction_id p
  ∧ customer_email q = customer_email p ∧ customer_name q = customer_name p
  ∧ customer_phone q = customer_phone p ∧ created_at q = created_at p.

(** ** The payment views ([PaymentViewSet]) *)

Module PaymentViewSet.

(** The [data] of a [Response]. *)
Inductive Body :=
| Initiated (checkout : option string) (payment_id : Z) (reference : string)
    (message : string)
| Verified (new_status : string) (amount currency : option string)
    (message : string)
| Refused (error message : string).

Record Response := {
  data : Body;
  status_code : Z;
}.

(** The two conditional assignments of [initiate_payment]: a value of the
    validated data is assigned when it is present and not empty. *)
Definition with_request_data (payment : Payment)
    (payment_method customer_phone : option string) : Payment :=
  let payment :=
    if truthy payment_method
    then set_payment_method payment_method payment else payment in
  if truthy customer_phone
  then set_customer_phone customer_phone payment else payment.

(** [PaymentViewSet.initiate_payment], from the object [get_object()] found
    and the validated data of the request on. *)
Definition initiate_payment (payment : Payment)
    (payment_method customer_phone : option string) : M Response :=
  let payment := with_request_data payment payment_method customer_phone in
  payment ← save payment;
  result ← initiate_payment payment;
  match result with
  | InitiateOk checkout payment_id reference =>
      mret {| data := Initiated checkout payment_id reference
                "Payment initiated successfully. Please complete payment using the checkout URL.";
              status_code := 200 |}
  | InitiateFailed error message =>
      mret {| data := Refused error message; status_code := 400 |}
  end.

(** [PaymentViewSet.verify_payment], from the object [get_object()] found
    on. *)
Definition verify_payment (payment : Payment) : M Response :=
  result ← verify_payment_status payment;
  match result with
  | StatusOk new_status amount currency =>
      mret {| data := Verified new_status amount currency
                        ("Payment status: " +:+ new_status);
              status_code := 200 |}
  | StatusFailed error message =>
      mret {| data := Refused error message; status_code := 400 |}
  end.

End PaymentViewSet.

(** ** The specification's wording of the mapping table *)

(** The fixed table of the specification, written case by case: the gateway
    vocabulary [success], [pending], [failed], [cancelled] goes to
    [completed], [pending], [failed], [cancelled], and any other word to
    [pending]. The code's dict lookup is compared with it below. *)
Definition mapping_table_spec (word : string) : string :=
  if String.eqb word "success" then "completed"
  else if String.eqb word "pending" then "pending"
  else if String.eqb word "failed" then "failed"
  else if String.eqb word "cancelled" then "cancelled"
  else "pending".

(** The gateway vocabulary. *)
Definition vocabulary : list string :=
  ["success"; "pending"; "failed"; "cancelled"].

(** ** Auxiliary definitions for the statements *)

(** The instance [save] leaves behind. *)
Definition saved (w : World) (payment : Payment) : Payment :=
  set_updated_at (now w)
    (if Str.truthy (reference payment) then payment
     else set_reference (uuid4 w (drawn w)) payment).

(** The gateway reference [verify] sends: the stored one. *)
Definition ref_of (payment : Payment) : string :=
  default "" (chapa_transaction_ref payment).

(** The status [get_payment_status] derives from one gateway answer. *)
Definition status_from (r : VerifyResult) : Exn + string :=
  match r with
  | VerifyOk (Some s) _ _ _ _ => inr (normalize_status s)
  | VerifyOk None _ _ _ _ => inl AttributeError
  | VerifyFailed _ _ => inr "failed"
  end.

(** The notification [update_payment_status] enqueues for a status. *)
Definition notification (payment_id : Z) (new_status : string) : list Task :=
  if String.eqb new_status "completed"
  then [send_payment_confirmation_email payment_id]
  else if String.eqb new_status "failed"
  then [send_payment_failed_email payment_id]
  else [].

(** A gateway that reports the remote status [s] for [ref] at every
    verification. *)
Definition steady (w : World) (ref s : string) : Prop :=
  ∀ n : nat, ∃ a c t m : option string,
    chapa_verify w n ref = VerifyOk (Some s) a c t m.

(** ** Scenarios *)

Module Scenario.

Definition abebe : User :=
  {| username := "abebe"; email := "abebe@example.com";
     first_name := "Abebe"; last_name := "Bikila" |}.

(** 100.00 per night *)
Definition villa : Listing := {| listing_id := 1; price_per_night := 10000 |}.

(** Three nights. *)
Definition stay : Booking :=
  {| booking_id := 7; listing := villa; user := abebe;
     start_date := 738977; end_date := 738980 |}.

(** A booking that ends the day it starts. *)
Definition same_day : Booking :=
  {| booking_id := 8; listing := villa; user := abebe;
     start_date := 738977; end_date := 738977 |}.

Definition hour : Z := 3600 * 1000000.

(** The clock of the scenarios: some instant, 100 hours after the origin. *)
Definition noon : Z := 100 * hour.

(** A payment of 300.00 in a given status, with a given gateway reference
    and creation time. *)
Definition payment_in (i : Z) (st : string) (ref : option string) (created : Z) : Payment :=
  {| id := i; booking := 7; reference := "3f2c1a9e-0001";
     amount := 30000; currency := "ETB"; status := st;
     payment_method := None; transaction_id := None;
     chapa_transaction_ref := ref;
     checkout_url := match ref with
                     | Some _ => Some "https://checkout.chapa.co/1"
                     | None => None
                     end;
     customer_email := Some "abebe@example.com";
     customer_name := Some "Abebe Bikila"; customer_phone := None;
     created_at := created; updated_at := created |}.

(** A gateway that accepts every initialization, under reference [tx-2]. *)
Definition accepts : nat → PaymentData → InitializeResult :=
  λ _ _, InitializeOk (Some "https://checkout.chapa.co/2") (Some "tx-2")
           (Some "success") (Some "Hosted Link").

(** A gateway that cannot be reached. *)
Definition unreachable : nat → PaymentData → InitializeResult :=
  λ _ _, InitializeFailed "ConnectionError" "Failed to initialize payment".

(** A gateway that reports the same remote status at every verification. *)
Definition reports (remote : string) : nat → string → VerifyResult :=
  λ _ _, VerifyOk (Some remote) (Some "300.00") (Some "ETB") (Some "tx-1")
           (Some "Payment details").

(** A gateway that answers the first verification and fails from the
    second on. *)
Definition drops_after_first : nat → string → VerifyResult :=
  λ n _, match n with
         | O => VerifyOk (Some "success") (Some "300.00") (Some "ETB")
                  (Some "tx-1") (Some "Payment details")
         | S _ => VerifyFailed "Timeout" "Failed to verify payment"
         end.

(** A gateway whose verifications all fail. *)
Definition silent : nat → string → VerifyResult :=
  λ _ _, VerifyFailed "Timeout" "Failed to verify payment".

(** A world holding the given payments, at [noon]. *)
Definition world_of (rows : list Payment)
    (init : nat → PaymentData → InitializeResult)
    (ver : nat → string → VerifyResult) : World :=
  {| payments := list_to_map ((λ p, (id p, p)) <$> rows);
     next_id := 10; now := noon;
     chapa_initialize := init; chapa_verify := ver; requests := 0;
     uuid4 := λ n, "3f2c1a9e-1" +:+ pretty n; drawn := 0; queue := [] |}.

Definition settled : Payment := payment_in 1 "completed" (Some "tx-1") 0.
Definition in_progress : Payment := payment_in 1 "processing" (Some "tx-1") 0.
Definition fresh : Payment := payment_in 1 "pending" None 0.
(** Created 25 hours and 1 hour before [noon]. *)
Definition stale : Payment := payment_in 2 "pending" None (noon - 25 * hour).
Definition recent : Payment := payment_in 3 "pending" None (noon - 1 * hour).

End Scenario.

(** * Properties *)

(** ** The string operations on examples *)

Example lower_SUCCESS : Str.lower "SUCCESS" = "success".
Proof. reflexivity. Qed.

Example strip_name : Str.strip "  Abebe Bikila " = "Abebe Bikila".
Proof. reflexivity. Qed.

(** A no-break space (U+00A0, bytes 194 160) is whitespace too. *)
Example strip_no_break_space :
  Str.strip (String (Str.byte 194) (String (Str.byte 160) "Abebe")) = "Abebe".
Proof. reflexivity. Qed.

Example split_name :
  Str.split " Abebe  Bikila Demissie" = ["Abebe"; "Bikila"; "Demissie"].
Proof. reflexivity. Qed.

Example payer_name_falls_back :
  payer_name {| username := "abebe"; email := "a@example.com";
                first_name := ""; last_name := "" |} = "abebe".
Proof. reflexivity. Qed.

(** ** Running the computations *)

Lemma verify_payment_run (ref : string) (w : World) :
  verify_payment ref w
  = (inr (chapa_verify w (requests w) ref), set_requests (S (requests w)) w).
Proof. reflexivity. Qed.

Lemma initialize_payment_run (d : PaymentData) (w : World) :
  initialize_payment d w
  = (inr (chapa_initialize w (requests w) d), set_requests (S (requests w)) w).
Proof. reflexivity. Qed.

Lemma save_run (payment : Payment) (w : World) :
  save payment w
  = (inr (saved w payment),
     set_payments (<[id payment := saved w payment]> (payments w))
       (if Str.truthy (reference payment) then w
        else set_drawn (S (drawn w)) w)).
Proof.
  unfold save, saved, mbind, M_bind, get, modify, mret, M_ret.
  destruct (Str.truthy (reference payment)); reflexivity.
Qed.

Lemma saved_fields (w : World) (payment : Payment) :
  id (saved w payment) = id payment
  ∧ status (saved w payment) = status payment
  ∧ chapa_transaction_ref (saved w payment) = chapa_transaction_ref payment
  ∧ checkout_url (saved w payment) = checkout_url payment
  ∧ amount (saved w payment) = amount payment.
Proof. unfold saved. destruct (Str.truthy (reference payment)); done. Qed.

Lemma get_payment_status_run (ref : string) (w : World) :
  get_payment_status ref w
  = (status_from (chapa_verify w (requests w) ref),
     set_requests (S (requests w)) w).
Proof.
  unfold get_payment_status, mbind, M_bind. rewrite verify_payment_run.
  destruct (chapa_verify w (requests w) ref) as [[s|] ? ? ? ?|? ?]; reflexivity.
Qed.

Lemma verify_without_ref (payment : Payment) (w : World) :
  truthy (chapa_transaction_ref payment) = false →
  verify_payment_status payment w
  = (inr (StatusFailed "No Chapa transaction reference found"
                       "Payment verification failed"), w).
Proof. intros H. unfold verify_payment_status. rewrite H. reflexivity. Qed.

Lemma verify_first_failed (payment : Payment) (w : World) (e m : string) :
  truthy (chapa_transaction_ref payment) = true →
  chapa_verify w (requests w) (ref_of payment) = VerifyFailed e m →
  verify_payment_status payment w
  = (inr (StatusFailed e m), set_requests (S (requests w)) w).
Proof.
  intros H H1. unfold verify_payment_status, ref_of in *. rewrite H. simpl.
  unfold mbind, M_bind. rewrite verify_payment_run, H1. reflexivity.
Qed.

(** Once the first exchange has succeeded, the second one decides: its
    status is written and returned, or its exception escapes. *)
Lemma verify_first_ok (payment : Payment) (w : World)
    (rs a c t m : option string) :
  truthy (chapa_transaction_ref payment) = true →
  chapa_verify w (requests w) (ref_of payment) = VerifyOk rs a c t m →
  verify_payment_status payment w
  = match status_from (chapa_verify w (S (requests w)) (ref_of payment)) with
    | inr new_status =>
        (inr (StatusOk new_status a c),
         world (save (set_status new_status payment)
                  (set_requests (S (S (requests w))) w)))
    | inl e => (inl e, set_requests (S (S (requests w))) w)
    end.
Proof.
  intros H H1. unfold verify_payment_status, ref_of in *. rewrite H. simpl.
  unfold mbind, M_bind at 1. rewrite verify_payment_run, H1.
  unfold M_bind at 1. rewrite get_payment_status_run. simpl.
  destruct (status_from _) as [e|st]; [reflexivity|].
  unfold M_bind. rewrite !save_run. reflexivity.
Qed.

Lemma stored_after_save (payment : Payment) (w : World) :
  payments (world (save payment w)) !! id payment = Some (saved w payment).
Proof.
  rewrite save_run. unfold world. simpl.
  destruct (Str.truthy (reference payment)); simpl; apply lookup_insert_eq.
Qed.

(** What [verify] and [initiate] read back after writing a status. *)
Lemma stored_status_written (st : string) (payment : Payment) (w : World) :
  stored_status (world (save (set_status st payment) w)) (id payment) = Some st.
Proof.
  pose proof (stored_after_save (set_status st payment) w) as Hs.
  simpl in Hs. unfold stored_status. rewrite Hs. simpl. f_equal.
  apply (saved_fields w (set_status st payment)).
Qed.

(** ** The status mapping *)

Lemma status_mapping_lookup (k : string) :
  status_mapping !! k =
    if decide (k = "success") then Some "completed"
    else if decide (k = "pending") then Some "pending"
    else if decide (k = "failed") then Some "failed"
    else if decide (k = "cancelled") then Some "cancelled"
    else None.
Proof.
  unfold status_mapping.
  repeat (rewrite lookup_insert; case_decide; [subst; reflexivity|]).
  repeat (case_decide; [congruence|]).
  rewrite lookup_singleton. case_decide; [subst; reflexivity|].
  case_decide; [congruence|done].
Qed.

Lemma lower_ascii_idemp (c : ascii) :
  Str.lower_ascii (Str.lower_ascii c) = Str.lower_ascii c.
Proof. destruct c as [[] [] [] [] [] [] [] []]; reflexivity. Qed.

Lemma lower_idemp (s : string) : Str.lower (Str.lower s) = Str.lower s.
Proof.
  induction s as [|c s IH]; simpl; [done|].
  by rewrite lower_ascii_idemp, IH.
Qed.

(** The dict lookup with default agrees with the table of the
    specification on every word. *)
Lemma mapping_agrees (k : string) :
  default "pending" (status_mapping !! k) = mapping_table_spec k.
Proof.
  rewrite status_mapping_lookup. unfold mapping_table_spec.
  repeat (case_decide as E;
          [subst; reflexivity | apply String.eqb_neq in E; rewrite E; clear E]).
  reflexivity.
Qed.

Lemma normalize_outside (s : string) :
  Str.lower s ∉ vocabulary → normalize_status s = "pending".
Proof.
  intros Hout. unfold normalize_status. simpl. rewrite status_mapping_lookup.
  unfold vocabulary in Hout.
  repeat case_decide; try reflexivity; exfalso; apply Hout;
    match goal with E : Str.lower s = _ |- _ => rewrite E end; set_solver.
Qed.

Lemma normalize_completed (s : string) :
  normalize_status s = "completed" ↔ Str.lower s = "success".
Proof.
  unfold normalize_status. simpl. rewrite status_mapping_lookup.
  repeat case_decide; simpl; split; intros; congruence.
Qed.

(** C6, as stated, fails: [SUCCESS] is not a word of the gateway vocabulary,
    and yet it is mapped to [completed], not to [pending]. *)
Lemma normalize_uppercase_counterexample :
  ("SUCCESS" ∉ vocabulary)
  ∧ normalize_status "SUCCESS" = "completed"
  ∧ normalize_status "SUCCESS" ≠ "pending".
Proof.
  split; [|split]; [|reflexivity|discriminate].
  apply (bool_decide_unpack _). reflexivity.
Qed.

(** C6, amended: [normalize_status] maps [success], [pending], [failed],
    [cancelled] to [completed], [pending], [failed], [cancelled], and every
    string whose lowercase form is outside that vocabulary to [pending],
    never to [completed]. *)
Theorem normalize_status_table (s : string) :
  (normalize_status "success" = "completed"
   ∧ normalize_status "pending" = "pending"
   ∧ normalize_status "failed" = "failed"
   ∧ normalize_status "cancelled" = "cancelled")
  ∧ (Str.lower s ∉ vocabulary →
     normalize_status s = "pending" ∧ normalize_status s ≠ "completed").
Proof.
  split; [repeat split; reflexivity|].
  intros Hout. rewrite (normalize_outside s Hout). split; [done|discriminate].
Qed.

Lemma normalize_status_table_witness :
  (Str.lower "weird_status" ∉ vocabulary)
  ∧ normalize_status "weird_status" = "pending"
  ∧ normalize_status "weird_status" ≠ "completed".
Proof.
  assert (Hout : Str.lower "weird_status" ∉ vocabulary)
    by (apply (bool_decide_unpack _); reflexivity).
  split; [exact Hout|].
  exact (proj2 (normalize_status_table "weird_status") Hout).
Defined.

(** C10: the normalization is case-insensitive. For every remote status
    string [s], [get_payment_status] lowercases [s] before the lookup, so
    that its result is the mapping table applied to [lower s], with default
    [pending]; strings that agree up to case get the same status, and
    [SUCCESS] normalizes to [completed]. *)
Theorem normalize_status_case_insensitive (s : string) :
  normalize_status s = mapping_table_spec (Str.lower s)
  ∧ (∀ (w : World) (ref : string) (a c t m : option string),
       chapa_verify w (requests w) ref = VerifyOk (Some s) a c t m →
       value (get_payment_status ref w)
       = inr (mapping_table_spec (Str.lower s)))
  ∧ (∀ s' : string, Str.lower s' = Str.lower s →
       normalize_status s' = normalize_status s)
  ∧ normalize_status (Str.lower s) = normalize_status s
  ∧ normalize_status "SUCCESS" = "completed".
Proof.
  assert (Hn : ∀ x, normalize_status x = mapping_table_spec (Str.lower x))
    by (intros x; apply mapping_agrees).
  split; [apply Hn|]. split; [|split; [|split]].
  - intros w ref a c t m Hr. rewrite get_payment_status_run, Hr.
    unfold value. simpl. by rewrite Hn.
  - intros s' Hs. by rewrite !Hn, Hs.
  - by rewrite !Hn, lower_idemp.
  - reflexivity.
Qed.

Lemma normalize_status_case_insensitive_witness :
  value (get_payment_status "tx-1"
           (Scenario.world_of [Scenario.in_progress] Scenario.accepts
              (Scenario.reports "SUCCESS")))
  = inr "completed".
Proof.
  apply (proj1 (proj2 (normalize_status_case_insensitive "SUCCESS"))
           (Scenario.world_of [Scenario.in_progress] Scenario.accepts
              (Scenario.reports "SUCCESS"))
           "tx-1" (Some "300.00") (Some "ETB") (Some "tx-1")
           (Some "Payment details")).
  reflexivity.
Defined.

(** C9: when the gateway call made inside [get_payment_status] fails,
    [get_payment_status] returns ['failed']; and since
    [verify_payment_status] stores what this second call gives, a failure of
    the second call writes status ['failed'] onto the payment although the
    first call succeeded, and the result is tagged as a success. *)
Theorem second_call_failure_stores_failed
    (payment : Payment) (w : World) (rs a c t m : option string)
    (e m' : string) :
  truthy (chapa_transaction_ref payment) = true →
  chapa_verify w (requests w) (ref_of payment) = VerifyOk rs a c t m →
  chapa_verify w (S (requests w)) (ref_of payment) = VerifyFailed e m' →
  value (get_payment_status (ref_of payment) (set_requests (S (requests w)) w))
  = inr "failed"
  ∧ value (verify_payment_status payment w) = inr (StatusOk "failed" a c)
  ∧ stored_status (world (verify_payment_status payment w)) (id payment)
    = Some "failed".
Proof.
  intros Href H1 H2. split; [|split].
  - rewrite get_payment_status_run. simpl. by rewrite H2.
  - rewrite (verify_first_ok _ _ _ _ _ _ _ Href H1), H2. reflexivity.
  - rewrite (verify_first_ok _ _ _ _ _ _ _ Href H1), H2. simpl.
    apply stored_status_written.
Qed.

Lemma second_call_failure_stores_failed_witness :
  let w := Scenario.world_of [Scenario.in_progress] Scenario.accepts
             Scenario.drops_after_first in
  stored_status w 1 = Some "processing"
  ∧ value (verify_payment_status Scenario.in_progress w)
    = inr (StatusOk "failed" (Some "300.00") (Some "ETB"))
  ∧ stored_status (world (verify_payment_status Scenario.in_progress w)) 1
    = Some "failed".
Proof.
  intros w. split; [reflexivity|].
  apply (second_call_failure_stores_failed Scenario.in_progress w
           (Some "success") (Some "300.00") (Some "ETB") (Some "tx-1")
           (Some "Payment details") "Timeout" "Failed to verify payment");
    reflexivity.
Defined.

(** ** Verification and the terminal states *)

Lemma payments_after_save (payment : Payment) (w : World) :
  payments (world (save payment w))
  = <[id payment := saved w payment]> (payments w).
Proof.
  rewrite save_run. unfold world. simpl.
  destruct (Str.truthy (reference payment)); reflexivity.
Qed.

(** C1, as stated, fails: a payment already [completed] whose gateway then
    reports [failed] has its stored status changed to [failed]. *)
Lemma verify_regresses_completed_counterexample :
  let w := Scenario.world_of [Scenario.settled] Scenario.accepts
             (Scenario.reports "failed") in
  terminal (status Scenario.settled)
  ∧ stored_status w 1 = Some "completed"
  ∧ stored_status (world (verify_payment_status Scenario.settled w)) 1
    = Some "failed".
Proof. intros w. split; [left; reflexivity|]. split; reflexivity. Qed.

(** C1, amended: for a payment whose status is already completed, failed or
    cancelled, [verify] leaves the table untouched when the payment has no
    gateway reference, when the first gateway call fails, or when the second
    answer carries no status (the exception escapes before the write);
    otherwise it overwrites the stored status with the one derived from the
    second gateway answer, so that the stored status stays as it was exactly
    when that derived status equals it. *)
Theorem verify_on_terminal_status (payment : Payment) (w : World) :
  terminal (status payment) →
  payments w !! id payment = Some payment →
  let after := world (verify_payment_status payment w) in
  (truthy (chapa_transaction_ref payment) = false → payments after = payments w)
  ∧ (∀ e m : string,
       truthy (chapa_transaction_ref payment) = true →
       chapa_verify w (requests w) (ref_of payment) = VerifyFailed e m →
       payments after = payments w)
  ∧ (∀ rs a c t m : option string,
       truthy (chapa_transaction_ref payment) = true →
       chapa_verify w (requests w) (ref_of payment) = VerifyOk rs a c t m →
       match status_from (chapa_verify w (S (requests w)) (ref_of payment)) with
       | inr new_status =>
           stored_status after (id payment) = Some new_status
           ∧ (stored_status after (id payment) = stored_status w (id payment)
              ↔ new_status = status payment)
       | inl _ => payments after = payments w
       end).
Proof.
  intros _ Hrow after. subst after. split; [|split].
  - intros Href. by rewrite verify_without_ref.
  - intros e m Href H1. by rewrite (verify_first_failed _ _ e m).
  - intros rs a c t m Href H1.
    rewrite (verify_first_ok _ _ rs a c t m Href H1).
    destruct (status_from _) as [e|st]; [reflexivity|].
    unfold world at 1 3. simpl. rewrite stored_status_written.
    split; [reflexivity|].
    unfold stored_status at 1. rewrite Hrow. simpl.
    split; congruence.
Qed.

Lemma verify_on_terminal_status_witness :
  let w := Scenario.world_of [Scenario.settled] Scenario.accepts
             (Scenario.reports "failed") in
  stored_status (world (verify_payment_status Scenario.settled w)) 1
  = Some "failed".
Proof.
  intros w.
  assert (Ht : terminal (status Scenario.settled)) by (left; reflexivity).
  assert (Hrow : payments w !! id Scenario.settled = Some Scenario.settled)
    by reflexivity.
  exact (proj1 (proj2 (proj2 (verify_on_terminal_status Scenario.settled w
                                Ht Hrow))
                 (Some "failed") (Some "300.00") (Some "ETB") (Some "tx-1")
                 (Some "Payment details") eq_refl eq_refl)).
Defined.

(** ** Gateway failures *)

Lemma initiate_run (payment : Payment) (w : World) (d : PaymentData) :
  build_payment_data payment = inr d →
  initiate_payment payment w
  = match chapa_initialize w (requests w) d with
    | InitializeOk checkout transaction_ref _ _ =>
        let written :=
          set_status "processing"
            (set_checkout_url checkout
               (set_chapa_transaction_ref transaction_ref payment)) in
        let w1 := set_requests (S (requests w)) w in
        (inr (InitiateOk checkout (id payment) (reference (saved w1 written))),
         world (save written w1))
    | InitializeFailed e m =>
        (inr (InitiateFailed e m),
         world (save (set_status "failed" payment)
                  (set_requests (S (requests w)) w)))
    end.
Proof.
  intros Hd. unfold initiate_payment. rewrite Hd.
  unfold mbind, M_bind at 1. unfold mret at 1, M_ret at 1.
  unfold M_bind at 1. rewrite initialize_payment_run.
  destruct (chapa_initialize w (requests w) d) as [co t rs m|e m]; simpl.
  - unfold M_bind. rewrite !save_run. simpl.
    destruct (Str.truthy (reference payment)); reflexivity.
  - unfold M_bind. rewrite !save_run. reflexivity.
Qed.

(** C4, as stated, fails for the second gateway call of [verify]: when it
    fails after the first one succeeded, the result is tagged as a success
    and the stored status goes from [processing] to [failed]. *)
Lemma verify_failure_changes_status_counterexample :
  let w := Scenario.world_of [Scenario.in_progress] Scenario.accepts
             Scenario.drops_after_first in
  chapa_verify w 1%nat "tx-1" = VerifyFailed "Timeout" "Failed to verify payment"
  ∧ stored_status w 1 = Some "processing"
  ∧ (∃ r : StatusResult,
       value (verify_payment_status Scenario.in_progress w) = inr r
       ∧ status_success r = true)
  ∧ stored_status (world (verify_payment_status Scenario.in_progress w)) 1
    = Some "failed".
Proof.
  intros w. split; [reflexivity|]. split; [reflexivity|].
  split; [|reflexivity]. eexists. split; reflexivity.
Qed.

(** C4, amended: when the gateway call inside [initiate] fails, the
    payment's status is set to failed and a tagged error result is returned;
    when the first gateway call of [verify] fails, a tagged error result is
    returned and the payment table is left exactly as it was. *)
Theorem gateway_failure_effects (payment : Payment) (w : World) :
  (∀ (d : PaymentData) (e m : string),
     build_payment_data payment = inr d →
     chapa_initialize w (requests w) d = InitializeFailed e m →
     value (initiate_payment payment w) = inr (InitiateFailed e m)
     ∧ stored_status (world (initiate_payment payment w)) (id payment)
       = Some "failed")
  ∧ (∀ e m : string,
       truthy (chapa_transaction_ref payment) = true →
       chapa_verify w (requests w) (ref_of payment) = VerifyFailed e m →
       value (verify_payment_status payment w) = inr (StatusFailed e m)
       ∧ payments (world (verify_payment_status payment w)) = payments w).
Proof.
  split.
  - intros d e m Hd Hr. rewrite (initiate_run _ _ d Hd), Hr.
    split; [reflexivity|]. unfold world at 1. simpl.
    apply stored_status_written.
  - intros e m Href Hr. rewrite (verify_first_failed _ _ e m Href Hr).
    split; reflexivity.
Qed.

Lemma gateway_failure_effects_witness :
  let w := Scenario.world_of [Scenario.fresh] Scenario.unreachable
             Scenario.silent in
  let w' := Scenario.world_of [Scenario.in_progress] Scenario.unreachable
              Scenario.silent in
  (value (initiate_payment Scenario.fresh w)
   = inr (InitiateFailed "ConnectionError" "Failed to initialize payment")
   ∧ stored_status (world (initiate_payment Scenario.fresh w)) 1
     = Some "failed")
  ∧ (value (verify_payment_status Scenario.in_progress w')
     = inr (StatusFailed "Timeout" "Failed to verify payment")
     ∧ payments (world (verify_payment_status Scenario.in_progress w'))
       = payments w').
Proof.
  intros w w'. split.
  - destruct (build_payment_data Scenario.fresh) as [e|d] eqn:Hd;
      [discriminate Hd|].
    apply (proj1 (gateway_failure_effects Scenario.fresh w) d
             "ConnectionError" "Failed to initialize payment" Hd).
    reflexivity.
  - apply (proj2 (gateway_failure_effects Scenario.in_progress w')
             "Timeout" "Failed to verify payment"); reflexivity.
Defined.

(** ** The gateway reference *)

Lemma stored_ref_after_save (payment : Payment) (w : World) :
  stored_ref (world (save payment w)) (id payment)
  = Some (chapa_transaction_ref payment).
Proof.
  unfold stored_ref. rewrite stored_after_save. simpl. f_equal.
  apply saved_fields.
Qed.

Lemma cleanup_lookup (w : World) (i : Z) :
  payments (cleanup_expired_payments w) !! i
  = (λ payment, if expired (now w - hours24) payment
                then set_status "failed" payment else payment)
      <$> payments w !! i.
Proof. unfold cleanup_expired_payments. simpl. apply lookup_fmap. Qed.

(** C8, as stated, fails: a payment that already has the gateway reference
    [tx-1] (and is no longer pending) is initiated again, and the reference
    is overwritten with the new one the gateway returns. *)
Lemma initiate_overwrites_ref_counterexample :
  let w := Scenario.world_of [Scenario.in_progress] Scenario.accepts
             (Scenario.reports "pending") in
  stored_ref w 1 = Some (Some "tx-1")
  ∧ stored_status w 1 = Some "processing"
  ∧ (∃ r : InitiateResult,
       value (initiate_payment Scenario.in_progress w) = inr r
       ∧ initiate_success r = true)
  ∧ stored_ref (world (initiate_payment Scenario.in_progress w)) 1
    = Some (Some "tx-2").
Proof.
  intros w. split; [reflexivity|]. split; [reflexivity|].
  split; [|reflexivity]. eexists. split; reflexivity.
Qed.

(** C8, amended: for a stored payment, [verify] and the expiry sweep never
    change its gateway reference, and [initiate] leaves it as it was when the
    gateway call fails. [initiate] checks no precondition on the status:
    whenever its gateway call succeeds, whatever the status and whether or
    not a reference was already set, it stores the reference the gateway
    returned and moves the payment to [processing]. *)
Theorem gateway_ref_changes (payment : Payment) (w : World) :
  payments w !! id payment = Some payment →
  stored_ref (world (verify_payment_status payment w)) (id payment)
  = Some (chapa_transaction_ref payment)
  ∧ stored_ref (cleanup_expired_payments w) (id payment)
    = Some (chapa_transaction_ref payment)
  ∧ (∀ (d : PaymentData) (e m : string),
       build_payment_data payment = inr d →
       chapa_initialize w (requests w) d = InitializeFailed e m →
       stored_ref (world (initiate_payment payment w)) (id payment)
       = Some (chapa_transaction_ref payment))
  ∧ (∀ (d : PaymentData) (checkout t rs m : option string),
       build_payment_data payment = inr d →
       chapa_initialize w (requests w) d = InitializeOk checkout t rs m →
       stored_ref (world (initiate_payment payment w)) (id payment) = Some t
       ∧ stored_status (world (initiate_payment payment w)) (id payment)
         = Some "processing").
Proof.
  intros Hrow.
  assert (Hsame : stored_ref w (id payment)
                  = Some (chapa_transaction_ref payment))
    by (unfold stored_ref; by rewrite Hrow).
  split; [|split; [|split]].
  - destruct (truthy (chapa_transaction_ref payment)) eqn:Href.
    + destruct (chapa_verify w (requests w) (ref_of payment))
        as [rs a c t m|e m] eqn:H1.
      * rewrite (verify_first_ok _ _ rs a c t m Href H1).
        destruct (status_from _) as [e|st]; [exact Hsame|].
        unfold world at 1. simpl.
        apply (stored_ref_after_save (set_status st payment)).
      * rewrite (verify_first_failed _ _ e m Href H1). exact Hsame.
    + rewrite (verify_without_ref _ _ Href). exact Hsame.
  - unfold stored_ref. rewrite cleanup_lookup, Hrow. simpl.
    by destruct (expired _ payment).
  - intros d e m Hd Hr. rewrite (initiate_run _ _ d Hd), Hr.
    unfold world at 1. simpl.
    apply (stored_ref_after_save (set_status "failed" payment)).
  - intros d co t rs m Hd Hr. rewrite (initiate_run _ _ d Hd), Hr.
    unfold world at 1 3. simpl. split.
    + apply (stored_ref_after_save
               (set_status "processing"
                  (set_checkout_url co (set_chapa_transaction_ref t payment)))).
    + apply (stored_status_written "processing"
               (set_checkout_url co (set_chapa_transaction_ref t payment))).
Qed.

Lemma gateway_ref_changes_witness :
  let w := Scenario.world_of [Scenario.in_progress] Scenario.accepts
             (Scenario.reports "pending") in
  stored_ref (world (verify_payment_status Scenario.in_progress w)) 1
  = Some (Some "tx-1")
  ∧ stored_ref (world (initiate_payment Scenario.in_progress w)) 1
    = Some (Some "tx-2").
Proof.
  intros w.
  assert (Hrow : payments w !! id Scenario.in_progress
                 = Some Scenario.in_progress) by reflexivity.
  destruct (gateway_ref_changes Scenario.in_progress w Hrow)
    as (Hv & _ & _ & Hi).
  split; [exact Hv|].
  destruct (build_payment_data Scenario.in_progress) as [e|d] eqn:Hd;
    [discriminate Hd|].
  exact (proj1 (Hi d (Some "https://checkout.chapa.co/2") (Some "tx-2")
                  (Some "success") (Some "Hosted Link") eq_refl eq_refl)).
Defined.

(** ** Creating a payment for a booking *)

(** The row [create_payment_for_booking] builds. *)
Lemma create_run (b : Booking) (u : User) (w : World) :
  ∃ payment : Payment,
    value (create_payment_for_booking b u w) = inr payment
    ∧ id payment = next_id w
    ∧ booking payment = booking_id b
    ∧ amount payment
      = price_per_night (listing b) * (end_date b - start_date b)
    ∧ status payment = "pending"
    ∧ chapa_transaction_ref payment = None
    ∧ customer_email payment = Some (email u)
    ∧ customer_name payment = Some (payer_name u)
    ∧ created_at payment = now w
    ∧ payments (world (create_payment_for_booking b u w))
      = <[next_id w := payment]> (payments w).
Proof. eexists. repeat split. Qed.

(** C2, as stated, fails: a booking that ends the day it starts raises
    nothing, and a payment record of amount zero is created for it. *)
Lemma create_same_day_counterexample :
  let w := Scenario.world_of [] Scenario.accepts (Scenario.reports "pending") in
  end_date Scenario.same_day <= start_date Scenario.same_day
  ∧ payments w !! 10 = None
  ∧ ∃ payment : Payment,
      value (create_payment_for_booking Scenario.same_day Scenario.abebe w)
      = inr payment
      ∧ amount payment = 0
      ∧ payments (world (create_payment_for_booking Scenario.same_day
                           Scenario.abebe w)) !! 10
        = Some payment.
Proof.
  intros w. split; [reflexivity|]. split; [reflexivity|].
  eexists. repeat split.
Qed.

(** C2, amended: for every booking with end_date <= start_date,
    [create_payment_for_booking] does not fail and checks nothing: it
    creates a pending payment record whose amount is nights × price, which
    is zero or negative for a price that is not negative. *)
Theorem create_without_nights (b : Booking) (u : User) (w : World) :
  end_date b <= start_date b →
  ∃ payment : Payment,
    value (create_payment_for_booking b u w) = inr payment
    ∧ amount payment
      = (end_date b - start_date b) * price_per_night (listing b)
    ∧ (0 <= price_per_night (listing b) → amount payment <= 0)
    ∧ status payment = "pending"
    ∧ payments (world (create_payment_for_booking b u w)) !! id payment
      = Some payment.
Proof.
  intros Hn.
  destruct (create_run b u w)
    as (p & Hv & Hid & _ & Ha & Hs & _ & _ & _ & _ & Hp).
  exists p. split; [exact Hv|]. split; [rewrite Ha; lia|].
  split; [intros Hprice; rewrite Ha; nia|].
  split; [exact Hs|]. rewrite Hp, Hid. apply lookup_insert_eq.
Qed.

Lemma create_without_nights_witness :
  let w := Scenario.world_of [] Scenario.accepts (Scenario.reports "pending") in
  ∃ payment : Payment,
    value (create_payment_for_booking Scenario.same_day Scenario.abebe w)
    = inr payment
    ∧ amount payment <= 0.
Proof.
  intros w.
  assert (Hn : end_date Scenario.same_day <= start_date Scenario.same_day)
    by reflexivity.
  destruct (create_without_nights Scenario.same_day Scenario.abebe w Hn)
    as (p & Hv & _ & Hle & _).
  exists p. split; [exact Hv|]. apply Hle. discriminate.
Defined.

(** C5: for every booking with nights > 0 and listing price p,
    [create_payment_for_booking] produces a payment with
    amount = nights × p and status pending, stored in the table, whose payer
    contact fields hold the user's e-mail and name as they are at creation
    time. *)
Theorem create_for_booking_amount (b : Booking) (u : User) (w : World) :
  0 < end_date b - start_date b →
  ∃ payment : Payment,
    value (create_payment_for_booking b u w) = inr payment
    ∧ amount payment
      = (end_date b - start_date b) * price_per_night (listing b)
    ∧ status payment = "pending"
    ∧ customer_email payment = Some (email u)
    ∧ customer_name payment = Some (payer_name u)
    ∧ payments (world (create_payment_for_booking b u w)) !! id payment
      = Some payment.
Proof.
  intros _.
  destruct (create_run b u w)
    as (p & Hv & Hid & _ & Ha & Hs & _ & He & Hn & _ & Hp).
  exists p. split; [exact Hv|]. split; [rewrite Ha; lia|].
  split; [exact Hs|]. split; [exact He|]. split; [exact Hn|].
  rewrite Hp, Hid. apply lookup_insert_eq.
Qed.

Lemma create_for_booking_amount_witness :
  let w := Scenario.world_of [] Scenario.accepts (Scenario.reports "pending") in
  ∃ payment : Payment,
    value (create_payment_for_booking Scenario.stay Scenario.abebe w)
    = inr payment
    ∧ amount payment = 30000
    ∧ status payment = "pending"
    ∧ customer_email payment = Some "abebe@example.com"
    ∧ customer_name payment = Some "Abebe Bikila".
Proof.
  intros w.
  assert (Hn : 0 < end_date Scenario.stay - start_date Scenario.stay)
    by reflexivity.
  destruct (create_for_booking_amount Scenario.stay Scenario.abebe w Hn)
    as (p & Hv & Ha & Hs & He & Hc & _).
  exists p. repeat split; assumption.
Defined.

(** ** The expiry sweep *)

(** C7: one run of [cleanup_expired_payments] moves every payment that is
    pending and was created more than 24 hours before the run to failed,
    and leaves every payment that is pending but not older than the cutoff
    as it was. *)
Theorem cleanup_expires_stale_pending (w : World) (i : Z) (payment : Payment) :
  payments w !! i = Some payment →
  status payment = "pending" →
  (created_at payment < now w - hours24 →
   payments (cleanup_expired_payments w) !! i
   = Some (set_status "failed" payment)
   ∧ stored_status (cleanup_expired_payments w) i = Some "failed")
  ∧ (now w - hours24 <= created_at payment →
     payments (cleanup_expired_payments w) !! i = Some payment).
Proof.
  intros Hrow Hst. unfold stored_status. rewrite cleanup_lookup, Hrow. simpl.
  unfold expired. rewrite Hst. simpl. split; intros Hage.
  - apply Z.ltb_lt in Hage. rewrite Hage. split; reflexivity.
  - apply Z.ltb_ge in Hage. rewrite Hage. reflexivity.
Qed.

Lemma cleanup_expires_stale_pending_witness :
  let w := Scenario.world_of [Scenario.stale; Scenario.recent]
             Scenario.accepts (Scenario.reports "pending") in
  stored_status (cleanup_expired_payments w) 2 = Some "failed"
  ∧ payments (cleanup_expired_payments w) !! 3 = Some Scenario.recent.
Proof.
  intros w. split.
  - apply (cleanup_expires_stale_pending w 2 Scenario.stale);
      reflexivity.
  - apply (cleanup_expires_stale_pending w 3 Scenario.recent);
      [reflexivity | reflexivity | discriminate].
Defined.

(** ** Verifying twice *)

(** One [verify] under a steady gateway. *)
Lemma verify_steady (payment : Payment) (w : World) (s : string) :
  truthy (chapa_transaction_ref payment) = true →
  steady w (ref_of payment) s →
  let r := verify_payment_status payment w in
  (∃ a c : option string, value r = inr (StatusOk (normalize_status s) a c))
  ∧ payments (world r)
    = <[id payment := saved w (set_status (normalize_status s) payment)]>
        (payments w)
  ∧ chapa_verify (world r) = chapa_verify w
  ∧ queue (world r) = queue w
  ∧ now (world r) = now w.
Proof.
  intros Href Hst r. subst r.
  destruct (Hst (requests w)) as (a & c & t & m & H1).
  destruct (Hst (S (requests w))) as (a' & c' & t' & m' & H2).
  rewrite (verify_first_ok _ _ _ a c t m Href H1), H2. simpl.
  split; [by exists a, c|].
  unfold world. simpl. rewrite save_run. simpl.
  destruct (Str.truthy (reference payment)); repeat split.
Qed.

(** The task, once the row is found: [verify], then the notification that
    goes with the status it returned. *)
Lemma update_run (payment_id : Z) (payment : Payment) (w : World) :
  payments w !! payment_id = Some payment →
  update_payment_status payment_id w
  = match verify_payment_status payment w with
    | (inr (StatusOk new_status _ _), w') =>
        if String.eqb new_status "completed"
        then set_queue (queue w' ++ [send_payment_confirmation_email payment_id]) w'
        else if String.eqb new_status "failed"
        then set_queue (queue w' ++ [send_payment_failed_email payment_id]) w'
        else w'
    | (_, w') => w'
    end.
Proof.
  intros Hrow.
  cbv [update_payment_status update_payment_status_try objects_get mbind
       M_bind get mret M_ret raise world].
  rewrite Hrow. cbv beta iota.
  destruct (verify_payment_status payment w) as [[e|[st a c|e m]] w'];
    [reflexivity| |reflexivity].
  destruct (String.eqb st "completed"); [reflexivity|].
  destruct (String.eqb st "failed"); reflexivity.
Qed.

(** One run of the task under a steady gateway. *)
Lemma update_steady (payment_id : Z) (payment : Payment) (w : World) (s : string) :
  payments w !! payment_id = Some payment →
  id payment = payment_id →
  truthy (chapa_transaction_ref payment) = true →
  steady w (ref_of payment) s →
  let w1 := update_payment_status payment_id w in
  payments w1
  = <[payment_id := saved w (set_status (normalize_status s) payment)]>
      (payments w)
  ∧ chapa_verify w1 = chapa_verify w
  ∧ now w1 = now w
  ∧ queue w1 = queue w ++ notification payment_id (normalize_status s).
Proof.
  intros Hrow Hid Href Hst w1. subst w1.
  destruct (verify_steady payment w s Href Hst)
    as ((a & c & Hv) & Hp & Hg & Hq & Hn).
  rewrite (update_run _ _ _ Hrow).
  destruct (verify_payment_status payment w) as [v w'].
  unfold value, world in *. simpl in *. subst v.
  unfold notification.
  destruct (String.eqb (normalize_status s) "completed");
    [|destruct (String.eqb (normalize_status s) "failed")];
    simpl; rewrite Hp, Hg, Hq, Hn, Hid, ?app_nil_r; repeat split.
Qed.

(** C3, as stated, fails in its second half: with the gateway reporting
    [success] throughout, the first run of the task moves the payment to
    [completed] and enqueues the confirmation; the second run finds it
    already [completed], observes no transition, and enqueues the
    confirmation again. *)
Lemma second_verify_enqueues_again_counterexample :
  let w := Scenario.world_of [Scenario.in_progress] Scenario.accepts
             (Scenario.reports "success") in
  let w1 := update_payment_status 1 w in
  let w2 := update_payment_status 1 w1 in
  stored_status w 1 = Some "processing"
  ∧ stored_status w1 1 = Some "completed"
  ∧ queue w1 = [send_payment_confirmation_email 1]
  ∧ stored_status w2 1 = Some "completed"
  ∧ queue w2 = [send_payment_confirmation_email 1;
                send_payment_confirmation_email 1].
Proof. intros w w1 w2. repeat split; reflexivity. Qed.

(** C3, amended: for every stored payment with a gateway reference, running
    the verification twice while the gateway reports the same remote status
    both times yields the same local status both times (its normalization);
    the completion or failure notification is enqueued by every run whose
    resulting status is completed or failed, the second run included,
    whether or not the status changed. *)
Theorem verify_twice_steady
    (payment_id : Z) (payment : Payment) (w : World) (s : string) :
  payments w !! payment_id = Some payment →
  id payment = payment_id →
  truthy (chapa_transaction_ref payment) = true →
  steady w (ref_of payment) s →
  let w1 := update_payment_status payment_id w in
  let w2 := update_payment_status payment_id w1 in
  stored_status w1 payment_id = Some (normalize_status s)
  ∧ stored_status w2 payment_id = Some (normalize_status s)
  ∧ queue w1 = queue w ++ notification payment_id (normalize_status s)
  ∧ queue w2 = queue w1 ++ notification payment_id (normalize_status s).
Proof.
  intros Hrow Hid Href Hst w1 w2. subst w1 w2.
  set (st := normalize_status s).
  destruct (update_steady payment_id payment w s Hrow Hid Href Hst)
    as (Hp1 & Hg1 & _ & Hq1).
  fold st in Hp1, Hq1.
  set (w1 := update_payment_status payment_id w) in *.
  set (p1 := saved w (set_status st payment)) in *.
  destruct (saved_fields w (set_status st payment))
    as (Hid1 & Hst1 & Href1 & _).
  assert (Hrow1 : payments w1 !! payment_id = Some p1)
    by (rewrite Hp1; apply lookup_insert_eq).
  assert (Hid1' : id p1 = payment_id) by (rewrite <- Hid; exact Hid1).
  assert (Hst1' : status p1 = st) by exact Hst1.
  assert (Href1' : chapa_transaction_ref p1 = chapa_transaction_ref payment)
    by exact Href1.
  assert (Htr1 : truthy (chapa_transaction_ref p1) = true)
    by (rewrite Href1'; exact Href).
  assert (Hsteady1 : steady w1 (ref_of p1) s).
  { intros n. unfold ref_of. rewrite Hg1, Href1'. apply Hst. }
  destruct (update_steady payment_id p1 w1 s Hrow1 Hid1' Htr1 Hsteady1)
    as (Hp2 & _ & _ & Hq2).
  fold st in Hp2, Hq2.
  split; [|split; [|split]].
  - unfold stored_status. rewrite Hrow1. exact (f_equal Some Hst1').
  - unfold stored_status. rewrite Hp2, lookup_insert_eq. simpl.
    f_equal. apply (saved_fields w1 (set_status st p1)).
  - exact Hq1.
  - exact Hq2.
Qed.

Lemma verify_twice_steady_witness :
  let w := Scenario.world_of [Scenario.in_progress] Scenario.accepts
             (Scenario.reports "failed") in
  let w1 := update_payment_status 1 w in
  let w2 := update_payment_status 1 w1 in
  stored_status w1 1 = Some "failed"
  ∧ stored_status w2 1 = Some "failed"
  ∧ queue w1 = [send_payment_failed_email 1]
  ∧ queue w2 = queue w1 ++ [send_payment_failed_email 1].
Proof.
  intros w w1 w2.
  assert (Hsteady : steady w (ref_of Scenario.in_progress) "failed").
  { intros n. exists (Some "300.00"), (Some "ETB"), (Some "tx-1"),
      (Some "Payment details"). reflexivity. }
  exact (verify_twice_steady 1 Scenario.in_progress w "failed"
           eq_refl eq_refl eq_refl Hsteady).
Defined.

(** * Further properties of the code *)

(** ** Names made of whitespace *)

Lemma split_go_some (cs : list string) (w : string) :
  Str.split_go (Some w) cs ≠ [].
Proof.
  revert w. induction cs as [|c cs IH]; intros w; simpl; [done|].
  destruct (Str.isspace c); [done|apply IH].
Qed.

Lemma split_go_none (cs : list string) :
  Str.split_go None cs = [] ↔ forallb Str.isspace cs = true.
Proof.
  induction cs as [|c cs IH]; simpl; [done|].
  destruct (Str.isspace c); simpl; [exact IH|].
  split; [intros H; by apply split_go_some in H|discriminate].
Qed.

Lemma split_blank (s : string) : Str.split s = [] ↔ blank s = true.
Proof. apply split_go_none. Qed.

(** The payload of [initiate] is built unless the name is whitespace. *)
Lemma build_payment_data_cases (payment : Payment) :
  (truthy (customer_name payment) = true
   ∧ blank (default "" (customer_name payment)) = true
   ∧ build_payment_data payment = inl IndexError)
  ∨ ((truthy (customer_name payment) = false
      ∨ blank (default "" (customer_name payment)) = false)
     ∧ ∃ d : PaymentData, build_payment_data payment = inr d).
Proof.
  unfold build_payment_data.
  destruct (truthy (customer_name payment)) eqn:Hname;
    [|right; split; [by left|by eexists]].
  destruct (Str.split (default "" (customer_name payment))) as [|first rest]
    eqn:Hsplit.
  - left. apply split_blank in Hsplit. done.
  - right. split; [|by eexists]. right.
    destruct (blank _) eqn:Hb; [|done].
    apply split_blank in Hb. congruence.
Qed.

Lemma initiate_returns (payment : Payment) (w : World) (d : PaymentData) :
  build_payment_data payment = inr d →
  ∃ r : InitiateResult, value (initiate_payment payment w) = inr r.
Proof.
  intros Hd. rewrite (initiate_run _ _ d Hd).
  destruct (chapa_initialize w (requests w) d); by eexists.
Qed.

(** X1: [initiate_payment] raises exactly when the payment's customer name
    is not empty and made of whitespace only: the exception is the
    [IndexError] of [split()[0]], it comes before the gateway is called, and
    the world is left as it was (no request, no write). In every other case
    a result dict is returned. *)
Theorem initiate_raises_on_blank_name (payment : Payment) (w : World) :
  ((∃ e : Exn, value (initiate_payment payment w) = inl e)
   ↔ truthy (customer_name payment) = true
     ∧ blank (default "" (customer_name payment)) = true)
  ∧ (∀ e : Exn, value (initiate_payment payment w) = inl e →
     initiate_payment payment w = (inl IndexError, w)).
Proof.
  destruct (build_payment_data_cases payment)
    as [(Hn & Hb & Hd)|(Hor & d & Hd)].
  - assert (Hrun : initiate_payment payment w = (inl IndexError, w))
      by (unfold initiate_payment; rewrite Hd; reflexivity).
    split; [|intros; exact Hrun].
    split; [done|]. intros _. exists IndexError. by rewrite Hrun.
  - destruct (initiate_returns payment w d Hd) as (r & Hr).
    split; [|intros e He; congruence].
    split; [intros (e & He); congruence|].
    intros (Hn & Hb). destruct Hor; congruence.
Qed.

Lemma initiate_raises_on_blank_name_witness :
  let p := Scenario.payment_in 1 "pending" None 0 in
  let blank_named :=
    {| id := id p; booking := booking p; reference := reference p;
       amount := amount p; currency := currency p; status := status p;
       payment_method := None; transaction_id := None;
       chapa_transaction_ref := None; checkout_url := None;
       customer_email := customer_email p; customer_name := Some "  ";
       customer_phone := None; created_at := 0; updated_at := 0 |} in
  let w := Scenario.world_of [blank_named] Scenario.accepts
             (Scenario.reports "success") in
  initiate_payment blank_named w = (inl IndexError, w).
Proof.
  intros p blank_named w.
  apply (proj2 (initiate_raises_on_blank_name blank_named w) IndexError).
  reflexivity.
Defined.

(** ** What [verify] raises, requests and returns *)

(** X2: [verify_payment_status] lets an exception escape exactly when the
    payment has a gateway reference, the first gateway call succeeds, and
    the second one succeeds with an answer that carries no status string;
    the exception is the [AttributeError] of [.lower()], and the payment
    table is left as it was. *)
Theorem verify_raises_without_remote_status
    (payment : Payment) (w : World) (e : Exn) :
  (value (verify_payment_status payment w) = inl e
   ↔ e = AttributeError
     ∧ truthy (chapa_transaction_ref payment) = true
     ∧ (∃ rs a c t m : option string,
          chapa_verify w (requests w) (ref_of payment) = VerifyOk rs a c t m)
     ∧ (∃ a c t m : option string,
          chapa_verify w (S (requests w)) (ref_of payment)
          = VerifyOk None a c t m))
  ∧ (value (verify_payment_status payment w) = inl e →
     payments (world (verify_payment_status payment w)) = payments w).
Proof.
  destruct (truthy (chapa_transaction_ref payment)) eqn:Href.
  - destruct (chapa_verify w (requests w) (ref_of payment))
      as [rs a c t m|e1 m1] eqn:H1.
    + rewrite (verify_first_ok _ _ rs a c t m Href H1).
      destruct (chapa_verify w (S (requests w)) (ref_of payment))
        as [[s|] a' c' t' m'|e2 m2] eqn:H2; simpl.
      * split; [|discriminate]. split; [discriminate|].
        intros (_ & _ & _ & (? & ? & ? & ? & ?)). discriminate.
      * split; [|reflexivity]. split.
        -- intros [= <-]. repeat split; eauto 10.
        -- intros (-> & _). reflexivity.
      * split; [|discriminate]. split; [discriminate|].
        intros (_ & _ & _ & (? & ? & ? & ? & ?)). discriminate.
    + rewrite (verify_first_failed _ _ e1 m1 Href H1).
      split; [|discriminate]. split; [discriminate|].
      intros (_ & _ & (? & ? & ? & ? & ? & ?) & _). discriminate.
  - rewrite (verify_without_ref _ _ Href).
    split; [|discriminate]. split; [discriminate|].
    intros (_ & ? & _). discriminate.
Qed.

Lemma verify_raises_without_remote_status_witness :
  let w := Scenario.world_of [Scenario.in_progress] Scenario.accepts
             (λ _ _, VerifyOk None None None None (Some "no data")) in
  value (verify_payment_status Scenario.in_progress w) = inl AttributeError
  ∧ payments (world (verify_payment_status Scenario.in_progress w))
    = payments w.
Proof.
  intros w.
  assert (Hv : value (verify_payment_status Scenario.in_progress w)
               = inl AttributeError).
  { apply (proj1 (verify_raises_without_remote_status Scenario.in_progress w
                    AttributeError)).
    repeat split; [by repeat eexists|by repeat eexists]. }
  split; [exact Hv|].
  exact (proj2 (verify_raises_without_remote_status Scenario.in_progress w
                  AttributeError) Hv).
Defined.

Lemma requests_after_save (payment : Payment) (w : World) :
  requests (world (save payment w)) = requests w.
Proof.
  rewrite save_run. unfold world. simpl.
  by destruct (Str.truthy (reference payment)).
Qed.

(** X3: the gateway requests of the service. [verify_payment_status] makes
    none for a payment without a gateway reference, one when its first call
    fails, and two whenever the first call succeeds (the status is fetched
    again by [get_payment_status]); [initiate_payment] makes exactly one
    once the payload is built. *)
Theorem service_request_counts (payment : Payment) (w : World) :
  requests (world (verify_payment_status payment w))
  = (requests w
     + if truthy (chapa_transaction_ref payment)
       then match chapa_verify w (requests w) (ref_of payment) with
            | VerifyOk _ _ _ _ _ => 2
            | VerifyFailed _ _ => 1
            end
       else 0)%nat
  ∧ (∀ d : PaymentData,
       build_payment_data payment = inr d →
       requests (world (initiate_payment payment w)) = S (requests w)).
Proof.
  split.
  - destruct (truthy (chapa_transaction_ref payment)) eqn:Href.
    + destruct (chapa_verify w (requests w) (ref_of payment))
        as [rs a c t m|e1 m1] eqn:H1.
      * rewrite (verify_first_ok _ _ rs a c t m Href H1).
        destruct (status_from _) as [e|st]; unfold world at 1; simpl;
          [lia|]. rewrite requests_after_save. simpl. lia.
      * rewrite (verify_first_failed _ _ e1 m1 Href H1). simpl. lia.
    + rewrite (verify_without_ref _ _ Href). simpl. lia.
  - intros d Hd. rewrite (initiate_run _ _ d Hd).
    destruct (chapa_initialize w (requests w) d); unfold world at 1; simpl;
      by rewrite requests_after_save.
Qed.

Lemma service_request_counts_witness :
  let w := Scenario.world_of [Scenario.in_progress] Scenario.accepts
             (Scenario.reports "success") in
  requests (world (verify_payment_status Scenario.in_progress w)) = 2%nat
  ∧ requests (world (initiate_payment Scenario.in_progress w)) = 1%nat.
Proof.
  intros w.
  destruct (service_request_counts Scenario.in_progress w) as (Hv & Hi).
  split; [exact Hv|].
  destruct (build_payment_data Scenario.in_progress) as [e|d] eqn:Hd;
    [discriminate Hd|].
  exact (Hi d eq_refl).
Defined.



(** ** The columns the service leaves alone *)

Lemma saved_same_booking_data (w : World) (payment : Payment) :
  same_booking_data payment (saved w payment)
  ∧ (Str.truthy (reference payment) = true →
     reference (saved w payment) = reference payment).
Proof.
  unfold saved, same_booking_data.
  destruct (Str.truthy (reference payment)); repeat split; done.
Qed.

Lemma save_other_rows (payment : Payment) (w : World) (i : Z) :
  i ≠ id payment →
  payments (world (save payment w)) !! i = payments w !! i.
Proof.
  intros Hi. rewrite payments_after_save. by rewrite lookup_insert_ne.
Qed.

(** What a write of [payment], changed by [f] in columns outside the
    booking data, leaves in the table. *)
Lemma save_frame (f : Payment → Payment) (payment : Payment) (w : World) :
  same_booking_data payment (f payment) →
  reference (f payment) = reference payment →
  (∀ i : Z, i ≠ id payment →
     payments (world (save (f payment) w)) !! i = payments w !! i)
  ∧ ∃ q : Payment,
      payments (world (save (f payment) w)) !! id payment = Some q
      ∧ same_booking_data payment q
      ∧ (Str.truthy (reference payment) = true →
         reference q = reference payment).
Proof.
  intros Hsame Href.
  assert (Hid : id (f payment) = id payment) by apply Hsame.
  split.
  - intros i Hi. apply save_other_rows. by rewrite Hid.
  - exists (saved w (f payment)). rewrite <- Hid at 1.
    split; [apply stored_after_save|].
    destruct (saved_same_booking_data w (f payment)) as (Hs & Hr).
    split.
    + unfold same_booking_data in *.
      intuition congruence.
    + intros Ht. rewrite Hr; [done|]. by rewrite Href.
Qed.

(** X5: for a stored payment, [verify_payment_status] and
    [initiate_payment] touch no other row, and of the payment's own row
    they keep the primary key, booking, amount, currency, payment method,
    transaction id, customer e-mail, name and phone, and creation time; a
    reference that is not empty is kept too. *)
Theorem service_keeps_booking_data (payment : Payment) (w : World) :
  payments w !! id payment = Some payment →
  ∀ after : World,
    after = world (verify_payment_status payment w)
    ∨ after = world (initiate_payment payment w) →
    (∀ i : Z, i ≠ id payment → payments after !! i = payments w !! i)
    ∧ ∃ q : Payment,
        payments after !! id payment = Some q
        ∧ same_booking_data payment q
        ∧ (Str.truthy (reference payment) = true →
           reference q = reference payment).
Proof.
  intros Hrow after Hafter.
  assert (Hkeep : (∀ i : Z, i ≠ id payment →
                     payments w !! i = payments w !! i)
                  ∧ ∃ q : Payment,
                      payments w !! id payment = Some q
                      ∧ same_booking_data payment q
                      ∧ (Str.truthy (reference payment) = true →
                         reference q = reference payment)).
  { split; [done|]. exists payment. repeat split; done. }
  destruct Hafter as [-> | ->].
  - destruct (truthy (chapa_transaction_ref payment)) eqn:Href.
    + destruct (chapa_verify w (requests w) (ref_of payment))
        as [rs a c t m|e1 m1] eqn:H1.
      * rewrite (verify_first_ok _ _ rs a c t m Href H1).
        destruct (status_from _) as [e|st]; [exact Hkeep|].
        unfold world at 1 2. simpl.
        apply (save_frame (set_status st) payment
                 (set_requests (S (S (requests w))) w)); repeat split; done.
      * rewrite (verify_first_failed _ _ e1 m1 Href H1). exact Hkeep.
    + rewrite (verify_without_ref _ _ Href). exact Hkeep.
  - destruct (build_payment_data_cases payment)
      as [(_ & _ & Hd)|(_ & d & Hd)].
    + assert (Hrun : initiate_payment payment w = (inl IndexError, w))
        by (unfold initiate_payment; rewrite Hd; reflexivity).
      rewrite Hrun. exact Hkeep.
    + rewrite (initiate_run _ _ d Hd).
      destruct (chapa_initialize w (requests w) d) as [co t rs m|e m];
        unfold world at 1 2; simpl.
      * apply (save_frame
                 (λ p, set_status "processing"
                         (set_checkout_url co
                            (set_chapa_transaction_ref t p))) payment
                 (set_requests (S (requests w)) w));
          repeat split; done.
      * apply (save_frame (set_status "failed") payment
                 (set_requests (S (requests w)) w)); repeat split; done.
Qed.

Lemma service_keeps_booking_data_witness :
  let w := Scenario.world_of [Scenario.in_progress; Scenario.recent]
             Scenario.accepts (Scenario.reports "success") in
  payments (world (verify_payment_status Scenario.in_progress w)) !! 3
  = Some Scenario.recent.
Proof.
  intros w.
  assert (Hrow : payments w !! id Scenario.in_progress
                 = Some Scenario.in_progress) by reflexivity.
  destruct (service_keeps_booking_data Scenario.in_progress w Hrow
              (world (verify_payment_status Scenario.in_progress w))
              (or_introl eq_refl)) as (Hothers & _).
  rewrite (Hothers 3); [reflexivity|discriminate].
Defined.

(** ** More on the expiry sweep *)

(** X6: [cleanup_expired_payments] never touches a payment that is not
    pending, whatever its age (a payment left in [processing] is never
    expired). It creates and deletes no row, writes no column but the
    status (the bulk update does not stamp [updated_at]), makes no gateway
    request and enqueues no notification. *)
Theorem cleanup_touches_pending_only (w : World) (i : Z) :
  (∀ payment : Payment,
     payments w !! i = Some payment →
     status payment ≠ "pending" →
     payments (cleanup_expired_payments w) !! i = Some payment)
  ∧ (payments (cleanup_expired_payments w) !! i = None
     ↔ payments w !! i = None)
  ∧ (∀ payment : Payment,
       payments w !! i = Some payment →
       ∃ q : Payment,
         payments (cleanup_expired_payments w) !! i = Some q
         ∧ same_booking_data payment q
         ∧ reference q = reference payment
         ∧ chapa_transaction_ref q = chapa_transaction_ref payment
         ∧ checkout_url q = checkout_url payment
         ∧ updated_at q = updated_at payment)
  ∧ requests (cleanup_expired_payments w) = requests w
  ∧ queue (cleanup_expired_payments w) = queue w
  ∧ next_id (cleanup_expired_payments w) = next_id w.
Proof.
  split; [|split; [|split]].
  - intros payment Hrow Hst. rewrite cleanup_lookup, Hrow. simpl.
    unfold expired.
    destruct (String.eqb (status payment) "pending") eqn:E; [|done].
    apply String.eqb_eq in E. done.
  - rewrite cleanup_lookup. destruct (payments w !! i); simpl; split; done.
  - intros payment Hrow. rewrite cleanup_lookup, Hrow. simpl.
    destruct (expired _ payment); eexists; (split; [reflexivity|]);
      repeat split; done.
  - repeat split.
Qed.

Lemma cleanup_touches_pending_only_witness :
  let old_processing := Scenario.payment_in 4 "processing" None 0 in
  let w := Scenario.world_of [old_processing; Scenario.stale]
             Scenario.accepts (Scenario.reports "pending") in
  payments (cleanup_expired_payments w) !! 4 = Some old_processing.
Proof.
  intros old_processing w.
  apply (proj1 (cleanup_touches_pending_only w 4) old_processing);
    [reflexivity|discriminate].
Defined.

Lemma expire_once (cutoff : Z) (payment : Payment) :
  let expire p := if expired cutoff p then set_status "failed" p else p in
  expire (expire payment) = expire payment.
Proof.
  simpl. destruct (expired cutoff payment) eqn:E; [|by rewrite E].
  reflexivity.
Qed.

(** X7: the sweep is idempotent: a second run at the same instant changes
    nothing more. *)
Theorem cleanup_idempotent (w : World) :
  cleanup_expired_payments (cleanup_expired_payments w)
  = cleanup_expired_payments w.
Proof.
  unfold cleanup_expired_payments. simpl. unfold set_payments. simpl.
  f_equal. rewrite <- map_fmap_compose. apply map_fmap_ext.
  intros i p _. apply expire_once.
Qed.

(** X8: after one run of the sweep, no stored payment is both pending and
    older than the cutoff of 24 hours. *)
Theorem cleanup_leaves_no_stale_pending (w : World) (i : Z) (q : Payment) :
  payments (cleanup_expired_payments w) !! i = Some q →
  status q = "pending" →
  now w - hours24 <= created_at q.
Proof.
  rewrite cleanup_lookup.
  destruct (payments w !! i) as [p|] eqn:Hrow; [|discriminate].
  simpl. destruct (expired (now w - hours24) p) eqn:E.
  - intros [= <-]. discriminate.
  - intros [= <-] Hst. unfold expired in E. rewrite Hst in E. simpl in E.
    by apply Z.ltb_ge in E.
Qed.

Lemma cleanup_leaves_no_stale_pending_witness :
  let w := Scenario.world_of [Scenario.stale; Scenario.recent]
             Scenario.accepts (Scenario.reports "pending") in
  now w - hours24 <= created_at Scenario.recent.
Proof.
  intros w.
  apply (cleanup_leaves_no_stale_pending w 3 Scenario.recent); reflexivity.
Defined.

(** ** What the service writes *)

Lemma normalize_status_cases (s : string) :
  normalize_status s = "completed" ∨ normalize_status s = "pending"
  ∨ normalize_status s = "failed" ∨ normalize_status s = "cancelled".
Proof.
  unfold normalize_status. simpl. rewrite status_mapping_lookup.
  repeat case_decide; simpl; auto.
Qed.

Lemma normalize_status_valid (s : string) : valid_status (normalize_status s).
Proof.
  unfold valid_status. simpl.
  destruct (normalize_status_cases s) as [-> | [-> | [-> | ->]]];
    set_solver.
Qed.

Lemma status_from_valid (r : VerifyResult) (st : string) :
  status_from r = inr st → valid_status st.
Proof.
  destruct r as [[s|] ? ? ? ?|? ?]; simpl; intros [= <-].
  - apply normalize_status_valid.
  - unfold valid_status. simpl. set_solver.
Qed.

(** The rest of the world after a [save]. *)
Lemma world_after_save (payment : Payment) (w : World) :
  let after := world (save payment w) in
  next_id after = next_id w ∧ queue after = queue w ∧ now after = now w
  ∧ chapa_verify after = chapa_verify w
  ∧ chapa_initialize after = chapa_initialize w.
Proof.
  simpl. rewrite save_run. unfold world. simpl.
  destruct (Str.truthy (reference payment)); repeat split.
Qed.

(** [verify] either leaves the table alone, or returns a success and writes
    one row, under the payment's key, with the returned status. *)
Lemma verify_writes (payment : Payment) (w : World) :
  let r := verify_payment_status payment w in
  (next_id (world r) = next_id w ∧ queue (world r) = queue w
   ∧ now (world r) = now w ∧ chapa_verify (world r) = chapa_verify w)
  ∧ (((∀ (st : string) (a c : option string),
         value r ≠ inr (StatusOk st a c))
      ∧ payments (world r) = payments w)
     ∨ ∃ (st : string) (a c : option string),
         value r = inr (StatusOk st a c)
         ∧ valid_status st
         ∧ payments (world r)
           = <[id payment := saved w (set_status st payment)]> (payments w)).
Proof.
  simpl.
  destruct (truthy (chapa_transaction_ref payment)) eqn:Href.
  - destruct (chapa_verify w (requests w) (ref_of payment))
      as [rs a c t m|e1 m1] eqn:H1.
    + rewrite (verify_first_ok _ _ rs a c t m Href H1).
      destruct (status_from _) as [e|st] eqn:Hs.
      * split; [repeat split|]. left. split; [discriminate|reflexivity].
      * unfold world, value. simpl.
        pose proof (world_after_save (set_status st payment)
                      (set_requests (S (S (requests w))) w)) as Hw.
        unfold world in Hw. simpl in Hw.
        split; [tauto|]. right. exists st, a, c.
        split; [reflexivity|]. split; [by eapply status_from_valid|].
        pose proof (payments_after_save (set_status st payment)
                      (set_requests (S (S (requests w))) w)) as Hp.
        unfold world in Hp. exact Hp.
    + rewrite (verify_first_failed _ _ e1 m1 Href H1).
      split; [repeat split|]. left. split; [discriminate|reflexivity].
  - rewrite (verify_without_ref _ _ Href).
    split; [repeat split|]. left. split; [discriminate|reflexivity].
Qed.

(** [initiate] either raises and leaves the world alone, or writes one row,
    under the payment's key, in status [processing] or [failed]. *)
Lemma initiate_writes (payment : Payment) (w : World) :
  let r := initiate_payment payment w in
  (next_id (world r) = next_id w ∧ queue (world r) = queue w
   ∧ now (world r) = now w ∧ chapa_verify (world r) = chapa_verify w)
  ∧ (payments (world r) = payments w
     ∨ ∃ q : Payment,
         id q = id payment
         ∧ (status q = "processing" ∨ status q = "failed")
         ∧ payments (world r) = <[id payment := q]> (payments w)).
Proof.
  simpl.
  destruct (build_payment_data_cases payment)
    as [(_ & _ & Hd)|(_ & d & Hd)].
  - assert (Hrun : initiate_payment payment w = (inl IndexError, w))
      by (unfold initiate_payment; rewrite Hd; reflexivity).
    rewrite Hrun. split; [repeat split|by left].
  - rewrite (initiate_run _ _ d Hd).
    destruct (chapa_initialize w (requests w) d) as [co t rs m|e m];
      unfold world at 1 2 3 4 5; simpl.
    + set (p' := set_status "processing"
                   (set_checkout_url co (set_chapa_transaction_ref t payment))).
      pose proof (world_after_save p' (set_requests (S (requests w)) w)) as Hw.
      simpl in Hw. split; [tauto|]. right. exists (saved w p').
      destruct (saved_fields w p') as (Hi & Hs & _).
      split; [exact Hi|]. split; [left; exact Hs|].
      apply (payments_after_save p' (set_requests (S (requests w)) w)).
    + set (p' := set_status "failed" payment).
      pose proof (world_after_save p' (set_requests (S (requests w)) w)) as Hw.
      simpl in Hw. split; [tauto|]. right. exists (saved w p').
      destruct (saved_fields w p') as (Hi & Hs & _).
      split; [exact Hi|]. split; [right; exact Hs|].
      apply (payments_after_save p' (set_requests (S (requests w)) w)).
Qed.

(** ** More on the verification task *)

Lemma update_missing (payment_id : Z) (w : World) :
  payments w !! payment_id = None → update_payment_status payment_id w = w.
Proof.
  intros Hrow.
  cbv [update_payment_status update_payment_status_try objects_get mbind
       M_bind get mret M_ret raise world].
  rewrite Hrow. reflexivity.
Qed.

(** The task's world is that of its [verify], up to the queue. *)
Lemma update_world (payment_id : Z) (payment : Payment) (w : World) :
  payments w !! payment_id = Some payment →
  let after := update_payment_status payment_id w in
  let verified := world (verify_payment_status payment w) in
  payments after = payments verified ∧ next_id after = next_id verified
  ∧ now after = now verified ∧ requests after = requests verified.
Proof.
  intros Hrow. simpl. rewrite (update_run _ _ _ Hrow).
  destruct (verify_payment_status payment w) as [[e|[st a c|e m]] w'];
    unfold world; simpl; [done| |done].
  destruct (String.eqb st "completed"); [done|].
  destruct (String.eqb st "failed"); done.
Qed.

(** X9: the task changes nothing at all when the payment does not exist or
    has no gateway reference (the world after is the world before, with no
    request made); and when the first gateway call fails it writes nothing
    and enqueues nothing. *)
Theorem update_without_effect (payment_id : Z) (w : World) :
  (payments w !! payment_id = None →
   update_payment_status payment_id w = w)
  ∧ (∀ payment : Payment,
       payments w !! payment_id = Some payment →
       truthy (chapa_transaction_ref payment) = false →
       update_payment_status payment_id w = w)
  ∧ (∀ (payment : Payment) (e m : string),
       payments w !! payment_id = Some payment →
       truthy (chapa_transaction_ref payment) = true →
       chapa_verify w (requests w) (ref_of payment) = VerifyFailed e m →
       payments (update_payment_status payment_id w) = payments w
       ∧ queue (update_payment_status payment_id w) = queue w).
Proof.
  split; [apply update_missing|]. split.
  - intros payment Hrow Href.
    rewrite (update_run _ _ _ Hrow), (verify_without_ref _ _ Href).
    reflexivity.
  - intros payment e m Hrow Href H1.
    rewrite (update_run _ _ _ Hrow), (verify_first_failed _ _ e m Href H1).
    split; reflexivity.
Qed.

Lemma update_without_effect_witness :
  let w := Scenario.world_of [Scenario.fresh] Scenario.accepts
             (Scenario.reports "success") in
  update_payment_status 5 w = w ∧ update_payment_status 1 w = w.
Proof.
  intros w. split.
  - apply (proj1 (update_without_effect 5 w)). reflexivity.
  - apply (proj1 (proj2 (update_without_effect 1 w)) Scenario.fresh);
      reflexivity.
Defined.

(** X10: one run of the task appends at most one notification to the
    queue and keeps what was queued. When it appends the confirmation, the
    status it has just stored for the payment is [completed]; when it
    appends the failure notice, that status is [failed]. *)
Theorem update_enqueues_for_stored_status (payment_id : Z) (w : World) :
  let after := update_payment_status payment_id w in
  ∃ added : list Task,
    queue after = queue w ++ added
    ∧ (added = []
       ∨ ∃ payment : Payment,
           payments w !! payment_id = Some payment
           ∧ ((added = [send_payment_confirmation_email payment_id]
               ∧ stored_status after (id payment) = Some "completed")
              ∨ (added = [send_payment_failed_email payment_id]
                 ∧ stored_status after (id payment) = Some "failed"))).
Proof.
  simpl. destruct (payments w !! payment_id) as [payment|] eqn:Hrow.
  - destruct (verify_writes payment w) as ((_ & Hq & _) & Hcases).
    rewrite (update_run _ _ _ Hrow).
    destruct (verify_payment_status payment w) as [v w'].
    unfold value, world in *. simpl in *.
    destruct Hcases as [(Hno & _)|(st & a & c & -> & _ & Hp)].
    + exists []. rewrite app_nil_r. split; [|by left].
      destruct v as [e|[st a c|e m]]; [done| |done].
      by destruct (Hno st a c).
    + assert (Hst : stored_status w' (id payment) = Some st).
      { unfold stored_status. rewrite Hp, lookup_insert_eq. simpl. f_equal.
        apply (saved_fields w (set_status st payment)). }
      destruct (String.eqb st "completed") eqn:E1.
      * apply String.eqb_eq in E1. subst st.
        exists [send_payment_confirmation_email payment_id]. simpl.
        rewrite Hq. split; [done|]. right. exists payment.
        split; [done|]. left. split; [done|exact Hst].
      * destruct (String.eqb st "failed") eqn:E2.
        -- apply String.eqb_eq in E2. subst st.
           exists [send_payment_failed_email payment_id]. simpl.
           rewrite Hq. split; [done|]. right. exists payment.
           split; [done|]. right. split; [done|exact Hst].
        -- exists []. rewrite app_nil_r. split; [done|by left].
  - rewrite (update_missing _ _ Hrow). exists [].
    rewrite app_nil_r. split; [done|by left].
Qed.

(** ** Invariants of the table *)

Lemma keyed_write (w after : World) (k : Z) (q : Payment) :
  keyed w → next_id w <= next_id after → id q = k → k < next_id after →
  payments after = <[k := q]> (payments w) →
  keyed after.
Proof.
  intros Hk Hn Hq Hlt Hp i p. rewrite Hp.
  destruct (decide (k = i)) as [<-|Hne].
  - rewrite lookup_insert_eq. intros [= <-]. done.
  - rewrite lookup_insert_ne by done. intros Hrow.
    destruct (Hk i p Hrow). split; [done|lia].
Qed.

Lemma keyed_same (w after : World) :
  keyed w → next_id after = next_id w → payments after = payments w →
  keyed after.
Proof. intros Hk Hn Hp i p. rewrite Hp, Hn. apply Hk. Qed.

Lemma keyed_verify (payment : Payment) (w : World) :
  keyed w → id payment < next_id w →
  keyed (world (verify_payment_status payment w)).
Proof.
  intros Hk Hlt.
  destruct (verify_writes payment w) as ((Hn & _) & [(_ & Hp)|Hw]).
  - by apply (keyed_same w).
  - destruct Hw as (st & a & c & _ & _ & Hp).
    apply (keyed_write w _ (id payment) (saved w (set_status st payment)) Hk);
      [lia| |lia|exact Hp].
    apply (saved_fields w (set_status st payment)).
Qed.

(** X11: every operation keeps the table well keyed (each row under its own
    primary key, below the sequence): creating a payment, the expiry sweep,
    the verification task, and [verify] or [initiate] on a payment whose
    key is below the sequence. *)
Theorem keyed_preserved (w : World) :
  keyed w →
  (∀ (b : Booking) (u : User),
     keyed (world (create_payment_for_booking b u w)))
  ∧ keyed (cleanup_expired_payments w)
  ∧ (∀ payment_id : Z, keyed (update_payment_status payment_id w))
  ∧ (∀ payment : Payment,
       id payment < next_id w →
       keyed (world (verify_payment_status payment w))
       ∧ keyed (world (initiate_payment payment w))).
Proof.
  intros Hk. split; [|split; [|split]].
  - intros b u.
    destruct (create_run b u w) as (p & _ & Hid & _ & _ & _ & _ & _ & _ & _ & Hp).
    apply (keyed_write w _ (next_id w) p Hk); [simpl; lia|done|simpl; lia|done].
  - intros i q. rewrite cleanup_lookup.
    destruct (payments w !! i) as [p|] eqn:Hrow; [|discriminate].
    simpl. destruct (Hk i p Hrow) as (Hid & Hlt).
    destruct (expired _ p); intros [= <-]; done.
  - intros payment_id.
    destruct (payments w !! payment_id) as [payment|] eqn:Hrow.
    + destruct (Hk _ _ Hrow) as (Hid & Hlt).
      destruct (update_world _ _ _ Hrow) as (Hp & Hn & _).
      assert (Hv : keyed (world (verify_payment_status payment w)))
        by (apply keyed_verify; [done|lia]).
      by apply (keyed_same _ _ Hv).
    + by rewrite (update_missing _ _ Hrow).
  - intros payment Hlt. split; [by apply keyed_verify|].
    destruct (initiate_writes payment w) as ((Hn & _) & [Hp|Hw]).
    + by apply (keyed_same w).
    + destruct Hw as (q & Hid & _ & Hp).
      apply (keyed_write w _ (id payment) q Hk); [lia|done|lia|done].
Qed.

Lemma keyed_preserved_witness :
  let w := Scenario.world_of [Scenario.in_progress; Scenario.stale]
             Scenario.accepts (Scenario.reports "success") in
  keyed (update_payment_status 1 (cleanup_expired_payments w)).
Proof.
  intros w.
  assert (Hk : keyed w).
  { intros i p Hrow.
    destruct (decide (i = 1)) as [->|H1];
      [by injection Hrow as <-|].
    destruct (decide (i = 2)) as [->|H2];
      [by injection Hrow as <-|].
    unfold w, Scenario.world_of in Hrow. simpl in Hrow.
    rewrite !lookup_insert_ne in Hrow by done. by rewrite lookup_empty in Hrow. }
  apply (keyed_preserved (cleanup_expired_payments w)).
  apply (keyed_preserved w Hk).
Defined.

Lemma valid_write (w after : World) (k : Z) (q : Payment) :
  valid_statuses w → valid_status (status q) →
  payments after = <[k := q]> (payments w) →
  valid_statuses after.
Proof.
  intros Hv Hq Hp i p. rewrite Hp.
  destruct (decide (k = i)) as [<-|Hne].
  - rewrite lookup_insert_eq. by intros [= <-].
  - rewrite lookup_insert_ne by done. apply Hv.
Qed.

Lemma valid_same (w after : World) :
  valid_statuses w → payments after = payments w → valid_statuses after.
Proof. intros Hv Hp i p. rewrite Hp. apply Hv. Qed.

Lemma valid_verify (payment : Payment) (w : World) :
  valid_statuses w → valid_statuses (world (verify_payment_status payment w)).
Proof.
  intros Hv.
  destruct (verify_writes payment w) as (_ & [(_ & Hp)|Hw]).
  - by apply (valid_same w).
  - destruct Hw as (st & a & c & _ & Hst & Hp).
    apply (valid_write w _ (id payment) (saved w (set_status st payment)) Hv);
      [|exact Hp].
    by rewrite (proj1 (proj2 (saved_fields w (set_status st payment)))).
Qed.

(** X12: every operation keeps the stored statuses among the choices the
    model declares (pending, processing, completed, failed, cancelled),
    whatever the gateway answers and whatever the status of the instance
    passed in: creating a payment, the expiry sweep, the verification task,
    [verify] and [initiate]. *)
Theorem valid_statuses_preserved (w : World) :
  valid_statuses w →
  (∀ (b : Booking) (u : User),
     valid_statuses (world (create_payment_for_booking b u w)))
  ∧ valid_statuses (cleanup_expired_payments w)
  ∧ (∀ payment_id : Z, valid_statuses (update_payment_status payment_id w))
  ∧ (∀ payment : Payment,
       valid_statuses (world (verify_payment_status payment w))
       ∧ valid_statuses (world (initiate_payment payment w))).
Proof.
  intros Hv. split; [|split; [|split]].
  - intros b u.
    destruct (create_run b u w) as (p & _ & _ & _ & _ & Hs & _ & _ & _ & _ & Hp).
    apply (valid_write w _ (next_id w) p Hv); [|done].
    rewrite Hs. unfold valid_status. simpl. set_solver.
  - intros i q. rewrite cleanup_lookup.
    destruct (payments w !! i) as [p|] eqn:Hrow; [|discriminate].
    simpl. destruct (expired _ p); intros [= <-]; [|by eapply Hv].
    unfold valid_status. simpl. set_solver.
  - intros payment_id.
    destruct (payments w !! payment_id) as [payment|] eqn:Hrow.
    + destruct (update_world _ _ _ Hrow) as (Hp & _).
      apply (valid_same _ _ (valid_verify payment w Hv) Hp).
    + by rewrite (update_missing _ _ Hrow).
  - intros payment. split; [by apply valid_verify|].
    destruct (initiate_writes payment w) as (_ & [Hp|Hw]).
    + by apply (valid_same w).
    + destruct Hw as (q & _ & Hs & Hp).
      apply (valid_write w _ (id payment) q Hv); [|done].
      unfold valid_status. simpl. destruct Hs as [-> | ->]; set_solver.
Qed.

Lemma valid_statuses_preserved_witness :
  let w := Scenario.world_of [] Scenario.accepts
             (Scenario.reports "weird_status") in
  valid_statuses
    (world (verify_payment_status
              (Scenario.payment_in 1 "no such status" (Some "tx-1") 0) w)).
Proof.
  intros w.
  assert (Hv : valid_statuses w) by (intros i p Hrow; discriminate Hrow).
  apply (valid_statuses_preserved w Hv).
Defined.

(** ** Creating payments in sequence *)

(** X13: in a well-keyed table, [create_payment_for_booking] takes a key no
    row has, leaves every stored row as it was, adds exactly one row, and
    advances the sequence by one, so that two payments created one after
    the other (even for the same booking) get different keys and are both
    stored. *)
Theorem create_adds_one_row (b1 b2 : Booking) (u1 u2 : User) (w : World) :
  keyed w →
  let r1 := create_payment_for_booking b1 u1 w in
  let r2 := create_payment_for_booking b2 u2 (world r1) in
  payments w !! next_id w = None
  ∧ (∀ (i : Z) (p : Payment),
       payments w !! i = Some p → payments (world r1) !! i = Some p)
  ∧ size (payments (world r1)) = S (size (payments w))
  ∧ next_id (world r1) = next_id w + 1
  ∧ ∃ p1 p2 : Payment,
      value r1 = inr p1 ∧ value r2 = inr p2
      ∧ id p1 ≠ id p2
      ∧ payments (world r2) !! id p1 = Some p1
      ∧ payments (world r2) !! id p2 = Some p2.
Proof.
  intros Hk r1 r2.
  assert (Hfree : payments w !! next_id w = None).
  { destruct (payments w !! next_id w) as [p|] eqn:Hrow; [|done].
    destruct (Hk _ _ Hrow). lia. }
  destruct (create_run b1 u1 w)
    as (p1 & Hv1 & Hid1 & _ & _ & _ & _ & _ & _ & _ & Hp1).
  destruct (create_run b2 u2 (world r1))
    as (p2 & Hv2 & Hid2 & _ & _ & _ & _ & _ & _ & _ & Hp2).
  fold r1 in Hv1, Hp1. fold r2 in Hv2, Hp2.
  assert (Hn : next_id (world r1) = next_id w + 1) by reflexivity.
  split; [exact Hfree|]. split; [|split; [|split; [exact Hn|]]].
  - intros i p Hrow. rewrite Hp1.
    rewrite lookup_insert_ne; [done|]. intros <-. congruence.
  - rewrite Hp1. by apply map_size_insert_None.
  - exists p1, p2. split; [done|]. split; [done|].
    assert (Hne : id p1 ≠ id p2) by (rewrite Hid1, Hid2, Hn; lia).
    split; [exact Hne|]. rewrite Hp2, Hp1, <- Hid2, <- Hid1. split.
    + rewrite lookup_insert_ne by done. apply lookup_insert_eq.
    + apply lookup_insert_eq.
Qed.

Lemma create_adds_one_row_witness :
  let w := Scenario.world_of [] Scenario.accepts (Scenario.reports "pending") in
  size (payments (world (create_payment_for_booking Scenario.stay
                           Scenario.abebe w))) = 1%nat.
Proof.
  intros w.
  assert (Hk : keyed w) by (intros i p Hrow; discriminate Hrow).
  exact (proj1 (proj2 (proj2 (create_adds_one_row Scenario.stay Scenario.stay
                                Scenario.abebe Scenario.abebe w Hk)))).
Defined.

(** ** From a booking to the notification *)




(** ** An accepted initialization without a reference *)

(** X15: when the gateway accepts an initialization but its answer holds no
    reference (or an empty one), [initiate_payment] still reports a success
    and moves the payment to [processing] without a gateway reference. From
    then on [verify_payment_status] refuses it with the missing-reference
    error without calling the gateway, the verification task changes
    nothing, and the expiry sweep, which looks at pending payments only,
    never expires it, however late it runs. *)
Theorem accepted_without_reference_stays_processing
    (payment : Payment) (w : World) (d : PaymentData)
    (co t rs m : option string) :
  build_payment_data payment = inr d →
  chapa_initialize w (requests w) d = InitializeOk co t rs m →
  truthy t = false →
  let w1 := world (initiate_payment payment w) in
  (∃ ref : string,
     value (initiate_payment payment w) = inr (InitiateOk co (id payment) ref))
  ∧ ∃ q : Payment,
      payments w1 !! id payment = Some q
      ∧ status q = "processing"
      ∧ verify_payment_status q w1
        = (inr (StatusFailed "No Chapa transaction reference found"
                             "Payment verification failed"), w1)
      ∧ update_payment_status (id payment) w1 = w1
      ∧ ∀ later : World,
          payments later = payments w1 →
          payments (cleanup_expired_payments later) !! id payment = Some q.
Proof.
  intros Hd Hreply Ht w1. subst w1.
  set (written := set_status "processing"
                    (set_checkout_url co (set_chapa_transaction_ref t payment))).
  set (w' := set_requests (S (requests w)) w).
  assert (Hrun : initiate_payment payment w
                 = (inr (InitiateOk co (id payment)
                           (reference (saved w' written))),
                    world (save written w')))
    by (rewrite (initiate_run _ _ d Hd), Hreply; reflexivity).
  rewrite Hrun. unfold value. simpl fst.
  change (world (inr (InitiateOk co (id payment)
                        (reference (saved w' written))),
                 world (save written w')))
    with (world (save written w')).
  set (w1 := world (save written w')).
  set (q := saved w' written).
  assert (Hrow : payments w1 !! id payment = Some q)
    by apply (stored_after_save written w').
  destruct (saved_fields w' written) as (Hid & Hst & Href & _).
  fold q in Hid, Hst, Href.
  assert (Hfalsy : truthy (chapa_transaction_ref q) = false)
    by (rewrite Href; exact Ht).
  split; [by eexists|]. exists q.
  split; [exact Hrow|]. split; [exact Hst|].
  split; [by apply verify_without_ref|]. split.
  - rewrite (update_run _ _ _ Hrow), (verify_without_ref _ _ Hfalsy).
    reflexivity.
  - intros later Hsame. rewrite cleanup_lookup, Hsame, Hrow.
    change (Some (if expired (now later - hours24) q
                  then set_status "failed" q else q) = Some q).
    unfold expired. rewrite Hst. reflexivity.
Qed.

Lemma accepted_without_reference_stays_processing_witness :
  let w := Scenario.world_of [Scenario.fresh]
             (λ _ _, InitializeOk None None (Some "success") None)
             (Scenario.reports "success") in
  let w1 := world (initiate_payment Scenario.fresh w) in
  update_payment_status 1 w1 = w1 ∧ stored_status w1 1 = Some "processing".
Proof.
  intros w w1.
  destruct (build_payment_data Scenario.fresh) as [e|d] eqn:Hd;
    [discriminate Hd|].
  destruct (accepted_without_reference_stays_processing Scenario.fresh w d
              None None (Some "success") None Hd eq_refl eq_refl)
    as (_ & q & _ & _ & _ & Hu & _).
  split; [exact Hu|reflexivity].
Defined.

(** X16: what a successful [initiate_payment] returns is what it stored:
    the payment id is the key of the written row, and the reference and the
    checkout URL of the result are those of that row (the reference being a
    fresh one if the instance had none). *)
Theorem initiate_result_matches_store
    (payment : Payment) (w : World)
    (co : option string) (payment_id : Z) (ref : string) :
  value (initiate_payment payment w) = inr (InitiateOk co payment_id ref) →
  payment_id = id payment
  ∧ ∃ q : Payment,
      payments (world (initiate_payment payment w)) !! payment_id = Some q
      ∧ reference q = ref
      ∧ checkout_url q = co
      ∧ status q = "processing"
      ∧ (Str.truthy (reference payment) = true → ref = reference payment)
      ∧ (reference payment = "" → ref = uuid4 w (drawn w)).
Proof.
  destruct (build_payment_data_cases payment)
    as [(_ & _ & Hd)|(_ & d & Hd)].
  - unfold initiate_payment. rewrite Hd. discriminate.
  - rewrite (initiate_run _ _ d Hd).
    destruct (chapa_initialize w (requests w) d) as [co' t rs m|e m];
      [|discriminate].
    cbv zeta. unfold value, world at 1. simpl fst. simpl snd.
    set (written := set_status "processing"
                      (set_checkout_url co'
                         (set_chapa_transaction_ref t payment))).
    set (w' := set_requests (S (requests w)) w).
    intros [= <- <- <-]. split; [reflexivity|].
    exists (saved w' written).
    split; [apply (stored_after_save written w')|].
    split; [reflexivity|].
    destruct (saved_fields w' written) as (_ & Hst & _ & Hco & _).
    split; [exact Hco|]. split; [exact Hst|].
    unfold saved. simpl. split.
    + intros ->. reflexivity.
    + intros ->. reflexivity.
Qed.

Lemma initiate_result_matches_store_witness :
  let w := Scenario.world_of [Scenario.fresh] Scenario.accepts
             (Scenario.reports "success") in
  ∃ q : Payment,
    payments (world (initiate_payment Scenario.fresh w)) !! 1 = Some q
    ∧ reference q = "3f2c1a9e-0001"
    ∧ checkout_url q = Some "https://checkout.chapa.co/2".
Proof.
  intros w.
  destruct (initiate_result_matches_store Scenario.fresh w
              (Some "https://checkout.chapa.co/2") 1 "3f2c1a9e-0001" eq_refl)
    as (_ & q & Hrow & Href & Hco & _).
  exists q. repeat split; assumption.
Defined.

(** ** The gateway client on the gateway's JSON *)

Lemma initialize_answer_dict (fields inner : gmap string Json) :
  default (JDict ∅) (fields !! "data") = JDict inner →
  initialize_payment_answer (Answered (JDict fields))
  = InitializeSuccess (default JNull (inner !! "checkout_url"))
      (default JNull (inner !! "reference"))
      (default JNull (fields !! "status"))
      (default JNull (fields !! "message")).
Proof. intros H. unfold initialize_payment_answer. simpl. by rewrite H. Qed.

Lemma verify_answer_dict (fields inner : gmap string Json) :
  default (JDict ∅) (fields !! "data") = JDict inner →
  verify_payment_answer (Answered (JDict fields))
  = VerifySuccess (default JNull (inner !! "status"))
      (default JNull (inner !! "amount"))
      (default JNull (inner !! "currency"))
      (default JNull (inner !! "reference"))
      (default JNull (fields !! "message")).
Proof. intros H. unfold verify_payment_answer. simpl. by rewrite H. Qed.

(** X17: [ChapaService.initialize_payment] reports a success exactly when
    the exchange raised nothing and the decoded body is an object whose
    ['data'] is missing or is an object; the body's own ['status'] plays no
    part. The checkout URL and the reference are then read from ['data'],
    and are [None] when it lacks them (so also when ['data'] is missing). *)
Theorem initialize_answer_success (x : Exchange) :
  ((∃ co t rs m : Json,
      initialize_payment_answer x = InitializeSuccess co t rs m)
   ↔ ∃ fields inner : gmap string Json,
       x = Answered (JDict fields)
       ∧ default (JDict ∅) (fields !! "data") = JDict inner)
  ∧ (∀ (fields inner : gmap string Json) (co t rs m : Json),
       x = Answered (JDict fields) →
       default (JDict ∅) (fields !! "data") = JDict inner →
       initialize_payment_answer x = InitializeSuccess co t rs m →
       co = default JNull (inner !! "checkout_url")
       ∧ t = default JNull (inner !! "reference")
       ∧ rs = default JNull (fields !! "status")
       ∧ m = default JNull (fields !! "message")).
Proof.
  split.
  - split.
    + intros (co & t & rs & m & H).
      destruct x as [[| | | | | |fields]|[] text]; try discriminate H.
      destruct (default (JDict ∅) (fields !! "data")) as [| | | | | |inner]
        eqn:Hdata;
        try (unfold initialize_payment_answer in H; simpl in H;
             rewrite Hdata in H; discriminate H).
      by exists fields, inner.
    + intros (fields & inner & -> & Hdata).
      rewrite (initialize_answer_dict _ _ Hdata). eauto.
  - intros fields inner co t rs m -> Hdata.
    rewrite (initialize_answer_dict _ _ Hdata). intros [= <- <- <- <-]. done.
Qed.

Lemma initialize_answer_success_witness :
  initialize_payment_answer
    (Answered (JDict {[ "status" := JStr "failed";
                        "message" := JStr "Invalid API Key" ]}))
  = InitializeSuccess JNull JNull (JStr "failed") (JStr "Invalid API Key").
Proof.
  set (fields := ({[ "status" := JStr "failed";
                     "message" := JStr "Invalid API Key" ]}
                  : gmap string Json)).
  assert (Hdata : default (JDict ∅) (fields !! "data") = JDict ∅)
    by reflexivity.
  destruct (proj2 (proj1 (initialize_answer_success (Answered (JDict fields))))
              (ex_intro _ fields (ex_intro _ ∅ (conj eq_refl Hdata))))
    as (co & t & rs & m & H).
  destruct (proj2 (initialize_answer_success (Answered (JDict fields)))
              fields ∅ co t rs m eq_refl Hdata H) as (-> & -> & -> & ->).
  exact H.
Defined.

(** X18: [ChapaService.verify_payment] reports a success exactly when the
    exchange raised nothing and the decoded body is an object whose
    ['data'] is missing or is an object; the remote status, amount,
    currency and reference are then read from ['data'], and are [None]
    when it lacks them. *)
Theorem verify_answer_success (x : Exchange) :
  ((∃ rs a c t m : Json, verify_payment_answer x = VerifySuccess rs a c t m)
   ↔ ∃ fields inner : gmap string Json,
       x = Answered (JDict fields)
       ∧ default (JDict ∅) (fields !! "data") = JDict inner)
  ∧ (∀ (fields inner : gmap string Json) (rs a c t m : Json),
       x = Answered (JDict fields) →
       default (JDict ∅) (fields !! "data") = JDict inner →
       verify_payment_answer x = VerifySuccess rs a c t m →
       rs = default JNull (inner !! "status")
       ∧ a = default JNull (inner !! "amount")
       ∧ c = default JNull (inner !! "currency")
       ∧ t = default JNull (inner !! "reference")
       ∧ m = default JNull (fields !! "message")).
Proof.
  split.
  - split.
    + intros (rs & a & c & t & m & H).
      destruct x as [[| | | | | |fields]|[] text]; try discriminate H.
      destruct (default (JDict ∅) (fields !! "data")) as [| | | | | |inner]
        eqn:Hdata;
        try (unfold verify_payment_answer in H; simpl in H;
             rewrite Hdata in H; discriminate H).
      by exists fields, inner.
    + intros (fields & inner & -> & Hdata).
      rewrite (verify_answer_dict _ _ Hdata). eauto 10.
  - intros fields inner rs a c t m -> Hdata.
    rewrite (verify_answer_dict _ _ Hdata). intros [= <- <- <- <- <-]. done.
Qed.

Lemma verify_answer_success_witness :
  verify_payment_answer
    (Answered (JDict {[ "message" := JStr "Payment details";
                        "data" := JDict {[ "status" := JStr "success";
                                           "amount" := JInt 300 ]} ]}))
  = VerifySuccess (JStr "success") (JInt 300) JNull JNull
      (JStr "Payment details").
Proof.
  set (inner := ({[ "status" := JStr "success"; "amount" := JInt 300 ]}
                 : gmap string Json)).
  set (fields := ({[ "message" := JStr "Payment details";
                     "data" := JDict inner ]} : gmap string Json)).
  assert (Hdata : default (JDict ∅) (fields !! "data") = JDict inner)
    by reflexivity.
  destruct (proj2 (proj1 (verify_answer_success (Answered (JDict fields))))
              (ex_intro _ fields (ex_intro _ inner (conj eq_refl Hdata))))
    as (rs & a & c & t & m & H).
  destruct (proj2 (verify_answer_success (Answered (JDict fields)))
              fields inner rs a c t m eq_refl Hdata H)
    as (-> & -> & -> & -> & ->).
  exact H.
Defined.

(** X19: the failures of the gateway client. [initialize_payment] and
    [verify_payment] return a failure with the message of the first handler
    ([Failed to initialize payment], [Failed to verify payment]) exactly for
    a [RequestException] of the exchange, with its text as the error. Every
    other failure carries [An unexpected error occurred]: an exception of
    another class, or a decoded body that is no object or whose ['data'] is
    no object ([null] included), where the error is the text of the
    [AttributeError] of [.get]. *)
Theorem client_failures (x : Exchange) (e m : string) :
  (initialize_payment_answer x = InitializeError e m →
   (m = "Failed to initialize payment" ∧ x = Raised true e)
   ∨ (m = "An unexpected error occurred"
      ∧ (x = Raised false e
         ∨ ∃ v : Json,
             e = no_attribute v "get" ∧ (∀ inner, v ≠ JDict inner)
             ∧ (x = Answered v
                ∨ ∃ fields, x = Answered (JDict fields)
                            ∧ fields !! "data" = Some v))))
  ∧ (verify_payment_answer x = VerifyError e m →
     (m = "Failed to verify payment" ∧ x = Raised true e)
     ∨ (m = "An unexpected error occurred"
        ∧ (x = Raised false e
           ∨ ∃ v : Json,
               e = no_attribute v "get" ∧ (∀ inner, v ≠ JDict inner)
               ∧ (x = Answered v
                  ∨ ∃ fields, x = Answered (JDict fields)
                              ∧ fields !! "data" = Some v)))).
Proof.
  split; intros H.
  - destruct x as [data|[] text]; [|injection H as <- <-; auto..].
    right.
    destruct data as [| | | | | |fields];
      try (injection H as <- <-; split; [done|]; right; eexists;
           split; [reflexivity|]; split; [done|]; by left).
    destruct (fields !! "data") as [v|] eqn:Hdata;
      [|by rewrite (initialize_answer_dict fields ∅) in H
          by (by rewrite Hdata)].
    destruct v as [| | | | | |inner];
      try (unfold initialize_payment_answer in H; simpl in H;
           rewrite Hdata in H; simpl in H; injection H as <- <-;
           split; [done|]; right; eexists; split; [reflexivity|];
           split; [done|]; right; by exists fields).
    by rewrite (initialize_answer_dict fields inner) in H
      by (by rewrite Hdata).
  - destruct x as [data|[] text]; [|injection H as <- <-; auto..].
    right.
    destruct data as [| | | | | |fields];
      try (injection H as <- <-; split; [done|]; right; eexists;
           split; [reflexivity|]; split; [done|]; by left).
    destruct (fields !! "data") as [v|] eqn:Hdata;
      [|by rewrite (verify_answer_dict fields ∅) in H
          by (by rewrite Hdata)].
    destruct v as [| | | | | |inner];
      try (unfold verify_payment_answer in H; simpl in H;
           rewrite Hdata in H; simpl in H; injection H as <- <-;
           split; [done|]; right; eexists; split; [reflexivity|];
           split; [done|]; right; by exists fields).
    by rewrite (verify_answer_dict fields inner) in H
      by (by rewrite Hdata).
Qed.

Lemma client_failures_witness :
  initialize_payment_answer (Answered (JDict {[ "data" := JNull ]}))
  = InitializeError "'NoneType' object has no attribute 'get'"
      "An unexpected error occurred"
  ∧ ∃ v : Json,
      "'NoneType' object has no attribute 'get'" = no_attribute v "get"
      ∧ ∀ inner, v ≠ JDict inner.
Proof.
  assert (H : initialize_payment_answer (Answered (JDict {[ "data" := JNull ]}))
              = InitializeError "'NoneType' object has no attribute 'get'"
                  "An unexpected error occurred") by reflexivity.
  split; [exact H|].
  destruct (proj1 (client_failures _ _ _) H)
    as [(Hm & _)|(_ & [Hx|(v & He & Hv & _)])];
    [discriminate Hm|discriminate Hx|].
  exists v. split; [exact He|exact Hv].
Defined.

(** X20: [get_payment_status] on the dict of [verify_payment]. It raises
    exactly when the verification succeeded with a remote status that is no
    string ([None], a number, a list, ...); otherwise it returns one of
    completed, pending, failed, cancelled and never [processing]. Reading
    the gateway's values as nullable strings loses nothing of this: the
    outcome is the one derived from the dict so read. *)
Theorem payment_status_answer_cases (r : VerifyDict) :
  ((∃ text : string, payment_status_answer r = inl text)
   ↔ ∃ v a c t m : Json,
       r = VerifySuccess v a c t m ∧ ∀ s : string, v ≠ JStr s)
  ∧ (∀ st : string,
       payment_status_answer r = inr st →
       valid_status st ∧ st ≠ "processing")
  ∧ match payment_status_answer r with
    | inr st => status_from (as_verify_result r) = inr st
    | inl _ => status_from (as_verify_result r) = inl AttributeError
    end.
Proof.
  split; [|split].
  - split.
    + intros (text & H).
      destruct r as [v a c t m|e m]; [|discriminate H].
      exists v, a, c, t, m. split; [done|]. intros s ->. discriminate H.
    + intros (v & a & c & t & m & -> & Hv).
      destruct v; simpl; eauto. by destruct (Hv s).
  - intros st H.
    assert (Hvalid : valid_status st).
    { destruct r as [[] a c t m|e m]; simpl in H; try discriminate H;
        injection H as <-; [apply normalize_status_valid|].
      unfold valid_status. simpl. set_solver. }
    split; [exact Hvalid|].
    destruct r as [[] a c t m|e m]; simpl in H; try discriminate H;
      injection H as <-; [|discriminate].
    destruct (normalize_status_cases s) as [-> | [-> | [-> | ->]]];
      discriminate.
  - destruct r as [[] a c t m|e m]; reflexivity.
Qed.

Lemma payment_status_answer_cases_witness :
  payment_status_answer (VerifySuccess (JInt 1) JNull JNull JNull JNull)
  = inl "'int' object has no attribute 'lower'"
  ∧ valid_status "completed".
Proof.
  split; [reflexivity|].
  exact (proj1 (proj1 (proj2 (payment_status_answer_cases
                                (VerifySuccess (JStr "Success") JNull JNull
                                   JNull JNull)))
                  "completed" eq_refl)).
Defined.

(** ** The payment views *)

(** The only exception of [verify]. *)
Lemma verify_raises_cases (payment : Payment) (w : World) (e : Exn) :
  value (verify_payment_status payment w) = inl e → e = AttributeError.
Proof.
  destruct (truthy (chapa_transaction_ref payment)) eqn:Href.
  - destruct (chapa_verify w (requests w) (ref_of payment))
      as [rs a c t m|e1 m1] eqn:H1.
    + rewrite (verify_first_ok _ _ rs a c t m Href H1).
      destruct (chapa_verify w (S (requests w)) (ref_of payment))
        as [[s|] a' c' t' m'|e2 m2]; simpl; [discriminate| |discriminate].
      by intros [= <-].
    + rewrite (verify_first_failed _ _ e1 m1 Href H1). discriminate.
  - rewrite (verify_without_ref _ _ Href). discriminate.
Qed.

Lemma view_verify_run (payment : Payment) (w : World) :
  PaymentViewSet.verify_payment payment w
  = match verify_payment_status payment w with
    | (inr (StatusOk st a c), w') =>
        (inr {| PaymentViewSet.data :=
                  PaymentViewSet.Verified st a c ("Payment status: " +:+ st);
                PaymentViewSet.status_code := 200 |}, w')
    | (inr (StatusFailed e m), w') =>
        (inr {| PaymentViewSet.data := PaymentViewSet.Refused e m;
                PaymentViewSet.status_code := 400 |}, w')
    | (inl e, w') => (inl e, w')
    end.
Proof.
  cbv [PaymentViewSet.verify_payment mbind M_bind mret M_ret].
  destruct (verify_payment_status payment w) as [[e|[st a c|e m]] w'];
    reflexivity.
Qed.

(** X21: the view [verify_payment]. A response 200 carries the status that
    has just been stored for the payment, with the message built from it; a
    response 400 means that nothing was written; and the only exception
    that can escape the view is the [AttributeError] of a missing remote
    status, also with nothing written. *)
Theorem view_verify_response (payment : Payment) (w : World) :
  let r := PaymentViewSet.verify_payment payment w in
  match value r with
  | inr response =>
      (PaymentViewSet.status_code response = 200
       ∧ ∃ (st : string) (a c : option string),
           PaymentViewSet.data response
           = PaymentViewSet.Verified st a c ("Payment status: " +:+ st)
           ∧ stored_status (world r) (id payment) = Some st)
      ∨ (PaymentViewSet.status_code response = 400
         ∧ (∃ e m : string,
              PaymentViewSet.data response = PaymentViewSet.Refused e m)
         ∧ payments (world r) = payments w)
  | inl e => e = AttributeError ∧ payments (world r) = payments w
  end.
Proof.
  simpl. rewrite view_verify_run.
  destruct (verify_writes payment w) as (_ & Hcases).
  pose proof (verify_raises_cases payment w) as Hraise.
  destruct (verify_payment_status payment w) as [v w'].
  unfold value, world in *. simpl in *.
  destruct Hcases as [(Hno & Hp)|(st & a & c & -> & _ & Hp)].
  - destruct v as [e|[st a c|e m]]; simpl.
    + split; [by apply Hraise|exact Hp].
    + by destruct (Hno st a c).
    + right. split; [done|]. split; [eauto|exact Hp].
  - simpl. left. split; [done|]. exists st, a, c. split; [done|].
    unfold stored_status. rewrite Hp, lookup_insert_eq. simpl. f_equal.
    apply (saved_fields w (set_status st payment)).
Qed.

Lemma view_initiate_run (payment : Payment)
    (payment_method customer_phone : option string) (w : World) :
  let p0 :=
    PaymentViewSet.with_request_data payment payment_method customer_phone in
  PaymentViewSet.initiate_payment payment payment_method customer_phone w
  = match initiate_payment (saved w p0) (world (save p0 w)) with
    | (inr (InitiateOk co payment_id ref), w') =>
        (inr {| PaymentViewSet.data :=
                  PaymentViewSet.Initiated co payment_id ref
                    "Payment initiated successfully. Please complete payment using the checkout URL.";
                PaymentViewSet.status_code := 200 |}, w')
    | (inr (InitiateFailed e m), w') =>
        (inr {| PaymentViewSet.data := PaymentViewSet.Refused e m;
                PaymentViewSet.status_code := 400 |}, w')
    | (inl e, w') => (inl e, w')
    end.
Proof.
  cbv zeta. unfold PaymentViewSet.initiate_payment.
  unfold mbind, M_bind at 1. rewrite save_run. unfold world. simpl snd.
  unfold M_bind at 1.
  destruct (initiate_payment _ _) as [[e|[co pid ref|e m]] w']; reflexivity.
Qed.

Lemma with_request_data_fields (payment : Payment)
    (method phone : option string) :
  let p0 := PaymentViewSet.with_request_data payment method phone in
  id p0 = id payment
  ∧ payment_method p0
    = (if truthy method then method else payment_method payment)
  ∧ customer_phone p0
    = (if truthy phone then phone else customer_phone payment).
Proof.
  unfold PaymentViewSet.with_request_data.
  destruct (truthy method), (truthy phone); repeat split.
Qed.

(** X22: the view [initiate_payment]. Once the payload can be built, the
    view answers 200 with the checkout URL when the gateway accepts and 400
    with the gateway's error when it does not; in both cases the payment
    method and the customer phone of the request are stored on the payment
    (each one only if present and not empty, the stored value being kept
    otherwise), next to the new status, [processing] or [failed]. *)
Theorem view_initiate_response (payment : Payment)
    (method phone : option string) (w : World) (d : PaymentData) :
  build_payment_data
    (saved w (PaymentViewSet.with_request_data payment method phone))
  = inr d →
  let r := PaymentViewSet.initiate_payment payment method phone w in
  ∃ (response : PaymentViewSet.Response) (q : Payment),
    value r = inr response
    ∧ payments (world r) !! id payment = Some q
    ∧ payment_method q
      = (if truthy method then method else payment_method payment)
    ∧ customer_phone q
      = (if truthy phone then phone else customer_phone payment)
    ∧ match chapa_initialize w (requests w) d with
      | InitializeOk co _ _ _ =>
          PaymentViewSet.status_code response = 200
          ∧ status q = "processing"
          ∧ ∃ message : string,
              PaymentViewSet.data response
              = PaymentViewSet.Initiated co (id payment) (reference q) message
      | InitializeFailed e m =>
          PaymentViewSet.status_code response = 400
          ∧ status q = "failed"
          ∧ PaymentViewSet.data response = PaymentViewSet.Refused e m
      end.
Proof.
  intros Hd. cbv zeta. rewrite view_initiate_run. cbv zeta.
  set (p0 := PaymentViewSet.with_request_data payment method phone) in *.
  set (p1 := saved w p0) in *.
  set (w1 := world (save p0 w)).
  destruct (with_request_data_fields payment method phone)
    as (Hid0 & Hm0 & Hph0).
  fold p0 in Hid0, Hm0, Hph0.
  destruct (saved_same_booking_data w p0) as (Hsame1 & _).
  fold p1 in Hsame1.
  assert (Hr1 : requests w1 = requests w) by apply requests_after_save.
  destruct (world_after_save p0 w) as (_ & _ & _ & _ & Hi1). fold w1 in Hi1.
  rewrite (initiate_run p1 w1 d Hd), Hi1, Hr1.
  set (w1' := set_requests (S (requests w)) w1).
  assert (Hkey : id p1 = id payment)
    by (rewrite <- Hid0; apply Hsame1).
  assert (Hm1 : payment_method p1
                = (if truthy method then method else payment_method payment))
    by (rewrite <- Hm0; apply Hsame1).
  assert (Hph1 : customer_phone p1
                 = (if truthy phone then phone else customer_phone payment))
    by (rewrite <- Hph0; apply Hsame1).
  destruct (chapa_initialize w (requests w) d) as [co t rs m|e m]; cbv zeta.
  - set (written := set_status "processing"
                      (set_checkout_url co
                         (set_chapa_transaction_ref t p1))).
    destruct (saved_same_booking_data w1' written) as (Hsame2 & _).
    destruct (saved_fields w1' written) as (_ & Hst & _).
    eexists _, (saved w1' written). split; [reflexivity|].
    unfold world at 1. simpl snd.
    split; [rewrite <- Hkey; apply (stored_after_save written w1')|].
    split; [rewrite <- Hm1; apply Hsame2|].
    split; [rewrite <- Hph1; apply Hsame2|].
    split; [reflexivity|]. split; [exact Hst|].
    eexists. rewrite <- Hkey. reflexivity.
  - set (written := set_status "failed" p1).
    destruct (saved_same_booking_data w1' written) as (Hsame2 & _).
    destruct (saved_fields w1' written) as (_ & Hst & _).
    eexists _, (saved w1' written). split; [reflexivity|].
    unfold world at 1. simpl snd.
    split; [rewrite <- Hkey; apply (stored_after_save written w1')|].
    split; [rewrite <- Hm1; apply Hsame2|].
    split; [rewrite <- Hph1; apply Hsame2|].
    split; [reflexivity|]. split; [exact Hst|reflexivity].
Qed.

Lemma view_initiate_response_witness :
  let w := Scenario.world_of [Scenario.fresh] Scenario.unreachable
             Scenario.silent in
  let r := PaymentViewSet.initiate_payment Scenario.fresh (Some "card")
             (Some "+251912345678") w in
  ∃ (response : PaymentViewSet.Response) (q : Payment),
    value r = inr response
    ∧ PaymentViewSet.status_code response = 400
    ∧ payments (world r) !! 1 = Some q
    ∧ payment_method q = Some "card"
    ∧ customer_phone q = Some "+251912345678"
    ∧ status q = "failed".
Proof.
  intros w r.
  destruct (build_payment_data
              (saved w (PaymentViewSet.with_request_data Scenario.fresh
                          (Some "card") (Some "+251912345678"))))
    as [e|d] eqn:Hd; [discriminate Hd|].
  destruct (view_initiate_response Scenario.fresh (Some "card")
              (Some "+251912345678") w d Hd)
    as (response & q & Hv & Hrow & Hm & Hph & Hcode & Hst & _).
  exists response, q. repeat split; assumption.
Defined.

(** ** Stripped names are not blank *)

(** The first character of a string, followed by anything: either it is
    read again as the first character, or it is a sequence cut short, which
    ends the string. In both cases the rest is again the characters of a
    string. *)
Lemma chars_head (s : string) (c : string) (r : list string) :
  Str.chars s = c :: r →
  (∃ s' : string, Str.chars s' = r)
  ∧ ((∀ t : string, Str.chars (c +:+ t) = c :: Str.chars t)
     ∨ (r = [] ∧ Str.chars c = [c])).
Proof.
  destruct s as [|a s]; [discriminate|]. simpl.
  destruct (N_of_ascii a <? 192)%N eqn:E1.
  { intros [= <- <-]. split; [eauto|]. left. intros t. simpl. by rewrite E1. }
  destruct s as [|b s].
  { intros [= <- <-]. split; [by exists ""|]. right.
    split; [done|]. simpl. by rewrite E1. }
  destruct (N_of_ascii a <? 224)%N eqn:E2.
  { intros [= <- <-]. split; [eauto|]. left. intros t. simpl.
    by rewrite E1, E2. }
  destruct s as [|c' s].
  { intros [= <- <-]. split; [by exists ""|]. right.
    split; [done|]. simpl. by rewrite E1, E2. }
  destruct (N_of_ascii a <? 240)%N eqn:E3.
  { intros [= <- <-]. split; [eauto|]. left. intros t. simpl.
    by rewrite E1, E2, E3. }
  destruct s as [|d' s].
  { intros [= <- <-]. split; [by exists ""|]. right.
    split; [done|]. simpl. by rewrite E1, E2, E3. }
  intros [= <- <-]. split; [eauto|]. left. intros t. simpl.
  by rewrite E1, E2, E3.
Qed.

Lemma chars_suffix (pre l : list string) (s : string) :
  Str.chars s = pre ++ l → ∃ s' : string, Str.chars s' = l.
Proof.
  revert s. induction pre as [|p pre IH]; intros s H; [eauto|].
  destruct (chars_head s p (pre ++ l) H) as ((s' & Hs') & _). eauto.
Qed.

Lemma lstrip_cases (l : list string) :
  Str.lstrip_chars l = []
  ∨ ∃ (pre : list string) (c : string) (r : list string),
      l = pre ++ c :: r ∧ Str.lstrip_chars l = c :: r
      ∧ Str.isspace c = false.
Proof.
  induction l as [|x l IH]; [by left|]. simpl.
  destruct (Str.isspace x) eqn:E.
  - destruct IH as [->|(pre & c & r & -> & Hl & Hc)]; [by left|].
    right. exists (x :: pre), c, r. by rewrite Hl.
  - right. by exists [], x, l.
Qed.

Lemma lstrip_snoc (l : list string) (c : string) :
  Str.isspace c = false →
  ∃ l' : list string, Str.lstrip_chars (l ++ [c]) = l' ++ [c]
                      ∧ ∃ pre, l = pre ++ l'.
Proof.
  intros Hc. induction l as [|x l IH]; simpl.
  - rewrite Hc. exists []. split; [done|by exists []].
  - destruct (Str.isspace x).
    + destruct IH as (l' & Hl & pre & ->). exists l'.
      split; [done|]. by exists (x :: pre).
    + exists (x :: l). split; [done|by exists []].
Qed.

Lemma append_empty_r (s : string) : s +:+ "" = s.
Proof.
  induction s as [|a s IH]; [reflexivity|].
  change (String a (s +:+ "") = String a s). by rewrite IH.
Qed.

(** A strip that leaves something leaves something that is not blank. *)
Lemma strip_not_blank (s : string) :
  Str.truthy (Str.strip s) = true → blank (Str.strip s) = false.
Proof.
  unfold Str.strip.
  destruct (lstrip_cases (Str.chars s))
    as [->|(pre & c & r & Hs & -> & Hc)]; [discriminate|].
  intros _. simpl rev at 2.
  destruct (lstrip_snoc (rev r) c Hc) as (l' & -> & pre' & Hr).
  rewrite rev_app_distr. simpl.
  destruct (chars_suffix pre (c :: r) s Hs) as (s' & Hs').
  destruct (chars_head s' c r Hs') as (_ & [Hcomplete|(-> & Hone)]).
  - unfold blank. rewrite Hcomplete. simpl. by rewrite Hc.
  - simpl in Hr. destruct pre'; [|by destruct pre'].
    simpl in Hr. subst l'. simpl.
    rewrite append_empty_r.
    unfold blank. rewrite Hone. simpl. by rewrite Hc.
Qed.

Lemma truthy_empty (s : string) : Str.truthy s = false ↔ s = "".
Proof. destruct s; simpl; split; done. Qed.

(** X23: creating a payment and initiating it. The [initiate_payment] that
    follows [create_payment_for_booking] raises (the [IndexError] of
    X1) exactly when the user's full name strips to nothing while the
    username is not empty and is made of whitespace only; in particular it
    never raises for a user whose username holds a character that is not
    whitespace. *)
Theorem initiate_after_create_raises
    (b : Booking) (u : User) (w : World) (payment : Payment) :
  value (create_payment_for_booking b u w) = inr payment →
  let w1 := world (create_payment_for_booking b u w) in
  (∃ e : Exn, value (initiate_payment payment w1) = inl e)
  ↔ Str.strip (first_name u +:+ " " +:+ last_name u) = ""
    ∧ username u ≠ "" ∧ blank (username u) = true.
Proof.
  intros Hv w1.
  destruct (create_run b u w)
    as (p & Hv' & _ & _ & _ & _ & _ & _ & Hname & _).
  assert (p = payment) as -> by congruence.
  destruct (build_payment_data_cases payment)
    as [(Hn & Hb & Hd)|(Hor & d & Hd)].
  - assert (Hrun : initiate_payment payment w1 = (inl IndexError, w1))
      by (unfold initiate_payment; rewrite Hd; reflexivity).
    rewrite Hname in Hn, Hb. simpl in Hn, Hb. unfold payer_name in Hn, Hb.
    split; [intros _|intros _; exists IndexError; by rewrite Hrun].
    destruct (Str.truthy (Str.strip _)) eqn:Hfull.
    + apply strip_not_blank in Hfull. congruence.
    + apply truthy_empty in Hfull. split; [done|]. split; [|done].
      intros Hu. rewrite Hu in Hn. discriminate.
  - destruct (initiate_returns payment w1 d Hd) as (r & Hr).
    split; [intros (e & He); congruence|].
    intros (Hfull & Hu & Hb). exfalso.
    rewrite Hname in Hor. simpl in Hor. unfold payer_name in Hor.
    rewrite Hfull in Hor. simpl in Hor.
    destruct Hor as [Hf|Hf]; [|congruence].
    apply truthy_empty in Hf. done.
Qed.

Lemma initiate_after_create_raises_witness :
  let w := Scenario.world_of [] Scenario.accepts (Scenario.reports "pending") in
  let unnamed := {| username := " "; email := "x@example.com";
                    first_name := ""; last_name := "" |} in
  ∃ payment : Payment,
    value (create_payment_for_booking Scenario.stay unnamed w) = inr payment
    ∧ ∃ e : Exn,
        value (initiate_payment payment
                 (world (create_payment_for_booking Scenario.stay unnamed w)))
        = inl e.
Proof.
  intros w unnamed. eexists. split; [reflexivity|].
  apply (proj2 (initiate_after_create_raises Scenario.stay unnamed w _
                  eq_refl)).
  split; [reflexivity|]. split; [discriminate|reflexivity].
Defined.
